(** * go-libp2p-kad-dht (BDWare fork): construction options and connection
    notifications

    A shallow embedding of [dht_options.go] (the [config] struct, its
    options, [apply], [applyFallbacks], [validate]) and of [notif.go] (the
    [netNotifiee] handlers [Connected], [testConnection], [Disconnected]),
    followed by the properties proved about them. *)

From Stdlib Require Import ZArith String Reals Lra.
From stdpp Require Import base gmap strings list pretty.

Set Default Proof Using "Type".
Open Scope Z_scope.

(** ** Go values shared by both files *)

(** A Go [error]: [None] is [nil], [Some msg] an error built by
    [fmt.Errorf]. *)
Definition error : Type := option string.

(** A Go map with string keys.  The zero value of a map type is the nil map
    ([None]): it reads as an empty map, and storing into it panics. *)
Definition gomap (V : Type) : Type := option (gmap string V).

Definition map_index {V} (m : gomap V) (k : string) : option V :=
  match m with
  | Some g => g !! k
  | None => None
  end.

Definition map_len {V} (m : gomap V) : Z :=
  match m with
  | Some g => Z.of_nat (size g)
  | None => 0
  end.

(** [m[k] = v]; [None] is the run-time panic "assignment to entry in nil
    map". *)
Definition map_assign {V} (m : gomap V) (k : string) (v : V) : option (gomap V) :=
  match m with
  | Some g => Some (Some (<[k := v]> g))
  | None => None
  end.

(** [time.Duration] counts nanoseconds in an [int64]. *)
Definition Duration : Type := Z.
Definition Minute : Duration := 60 * 1000000000.
Definition Hour : Duration := 60 * Minute.

(** [math.Log2] on the real number a [float64] stands for (rounding is not
    modelled). *)
Definition Log2 (x : R) : R := (ln x / ln 2)%R.

(** What the two files import from other packages: the interfaces stay
    abstract, the constants declared in files of the package that are not
    part of this development are fields. *)
Class Imports : Type := {
  (* go-datastore *)
  Batching : Type;
  NewMapDatastore : Batching;
  (* libp2p core *)
  Host : Type;
  KeyBook : Type;
  Peerstore : Host -> KeyBook;
  AddrInfo : Type;
  (* validators implemented outside go-libp2p-record and go-ipns *)
  UserValidator : Type;
  (* providers.Option, QueryFilterFunc, RouteTableFilterFunc *)
  ProvidersOption : Type;
  QueryFilterFunc : Type;
  emptyQueryFilter : QueryFilterFunc;
  RouteTableFilterFunc : Type;
  emptyRTFilter : RouteTableFilterFunc;
  (* declared next to the connection-protection code *)
  defaultProtectedBuckets : Z
}.

(** ** go-libp2p-record and go-ipns validators *)

Module record.

(** The dynamic type and value held by a [record.Validator] interface.
    [NamespacedValidator] is [map[string]Validator]; [PublicKeyValidator] is
    an empty struct; [IpnsValidator] is [ipns.Validator{KeyBook: kb}]. *)
#[warnings="-register-all"]
Inductive Validator `{Imports} : Type :=
  | Nil
  | PublicKeyValidator
  | IpnsValidator (kb : KeyBook)
  | NamespacedValidator (nsval : gomap Validator)
  | Other (v : UserValidator).

End record.

(** * dht_options.go *)

Module Options.

Section WithImports.
Context `{Imports}.

Definition ModeOpt : Type := Z.
Definition ModeAuto : ModeOpt := 0.
Definition ModeClient : ModeOpt := 1.
Definition ModeServer : ModeOpt := 2.
Definition ModeAutoServer : ModeOpt := 3.

Definition DefaultPrefix : string := "/ipfs".

Record routingTableConfig : Type := {
  refreshQueryTimeout : Duration;
  refreshInterval : Duration;
  autoRefresh : bool;
  latencyTolerance : Duration;
  peerFilter : option RouteTableFilterFunc;
  considerLatency : bool;
  avgBitsImprovedPerStep : R;
  avgRoundTripPerStep : R
}.

Record config : Type := {
  datastore : option Batching;
  validator : record.Validator;
  validatorChanged : bool;
  mode : ModeOpt;
  protocolPrefix : string;
  bucketSize : Z;
  concurrency : Z;
  resiliency : Z;
  maxRecordAge : Duration;
  enableProviders : bool;
  enableValues : bool;
  providersOptions : list ProvidersOption;
  queryPeerFilter : option QueryFilterFunc;
  protectAllBuckets : bool;
  protectedBuckets : Z;
  routingTable : routingTableConfig;
  v1CompatibleMode : bool;
  bootstrapPeers : list AddrInfo
}.

(** The zero value of [config], as [var cfg config] gives it. *)
Definition zero : config := {|
  datastore := None; validator := record.Nil; validatorChanged := false;
  mode := 0; protocolPrefix := ""; bucketSize := 0; concurrency := 0;
  resiliency := 0; maxRecordAge := 0; enableProviders := false;
  enableValues := false; providersOptions := []; queryPeerFilter := None;
  protectAllBuckets := false; protectedBuckets := 0;
  routingTable := {|
    refreshQueryTimeout := 0; refreshInterval := 0; autoRefresh := false;
    latencyTolerance := 0; peerFilter := None; considerLatency := false;
    avgBitsImprovedPerStep := 0; avgRoundTripPerStep := 0 |};
  v1CompatibleMode := false; bootstrapPeers := [] |}.

(** *** Field stores: [c.f = v] *)

Definition set_refreshQueryTimeout v (r : routingTableConfig) := {|
  refreshQueryTimeout := v; refreshInterval := refreshInterval r;
  autoRefresh := autoRefresh r; latencyTolerance := latencyTolerance r;
  peerFilter := peerFilter r; considerLatency := considerLatency r;
  avgBitsImprovedPerStep := avgBitsImprovedPerStep r;
  avgRoundTripPerStep := avgRoundTripPerStep r |}.

Definition set_refreshInterval v (r : routingTableConfig) := {|
  refreshQueryTimeout := refreshQueryTimeout r; refreshInterval := v;
  autoRefresh := autoRefresh r; latencyTolerance := latencyTolerance r;
  peerFilter := peerFilter r; considerLatency := considerLatency r;
  avgBitsImprovedPerStep := avgBitsImprovedPerStep r;
  avgRoundTripPerStep := avgRoundTripPerStep r |}.

Definition set_autoRefresh v (r : routingTableConfig) := {|
  refreshQueryTimeout := refreshQueryTimeout r; refreshInterval := refreshInterval r;
  autoRefresh := v; latencyTolerance := latencyTolerance r;
  peerFilter := peerFilter r; considerLatency := considerLatency r;
  avgBitsImprovedPerStep := avgBitsImprovedPerStep r;
  avgRoundTripPerStep := avgRoundTripPerStep r |}.

Definition set_latencyTolerance v (r : routingTableConfig) := {|
  refreshQueryTimeout := refreshQueryTimeout r; refreshInterval := refreshInterval r;
  autoRefresh := autoRefresh r; latencyTolerance := v;
  peerFilter := peerFilter r; considerLatency := considerLatency r;
  avgBitsImprovedPerStep := avgBitsImprovedPerStep r;
  avgRoundTripPerStep := avgRoundTripPerStep r |}.

Definition set_peerFilter v (r : routingTableConfig) := {|
  refreshQueryTimeout := refreshQueryTimeout r; refreshInterval := refreshInterval r;
  autoRefresh := autoRefresh r; latencyTolerance := latencyTolerance r;
  peerFilter := v; considerLatency := considerLatency r;
  avgBitsImprovedPerStep := avgBitsImprovedPerStep r;
  avgRoundTripPerStep := avgRoundTripPerStep r |}.

Definition set_considerLatency v (r : routingTableConfig) := {|
  refreshQueryTimeout := refreshQueryTimeout r; refreshInterval := refreshInterval r;
  autoRefresh := autoRefresh r; latencyTolerance := latencyTolerance r;
  peerFilter := peerFilter r; considerLatency := v;
  avgBitsImprovedPerStep := avgBitsImprovedPerStep r;
  avgRoundTripPerStep := avgRoundTripPerStep r |}.

Definition set_avgBitsImprovedPerStep v (r : routingTableConfig) := {|
  refreshQueryTimeout := refreshQueryTimeout r; refreshInterval := refreshInterval r;
  autoRefresh := autoRefresh r; latencyTolerance := latencyTolerance r;
  peerFilter := peerFilter r; considerLatency := considerLatency r;
  avgBitsImprovedPerStep := v;
  avgRoundTripPerStep := avgRoundTripPerStep r |}.

Definition set_avgRoundTripPerStep v (r : routingTableConfig) := {|
  refreshQueryTimeout := refreshQueryTimeout r; refreshInterval := refreshInterval r;
  autoRefresh := autoRefresh r; latencyTolerance := latencyTolerance r;
  peerFilter := peerFilter r; considerLatency := considerLatency r;
  avgBitsImprovedPerStep := avgBitsImprovedPerStep r;
  avgRoundTripPerStep := v |}.

Definition set_datastore v (c : config) := {|
  datastore := v; validator := validator c; validatorChanged := validatorChanged c;
  mode := mode c; protocolPrefix := protocolPrefix c; bucketSize := bucketSize c;
  concurrency := concurrency c; resiliency := resiliency c;
  maxRecordAge := maxRecordAge c; enableProviders := enableProviders c;
  enableValues := enableValues c; providersOptions := providersOptions c;
  queryPeerFilter := queryPeerFilter c; protectAllBuckets := protectAllBuckets c;
  protectedBuckets := protectedBuckets c; routingTable := routingTable c;
  v1CompatibleMode := v1CompatibleMode c; bootstrapPeers := bootstrapPeers c |}.

Definition set_validator v (c : config) := {|
  datastore := datastore c; validator := v; validatorChanged := validatorChanged c;
  mode := mode c; protocolPrefix := protocolPrefix c; bucketSize := bucketSize c;
  concurrency := concurrency c; resiliency := resiliency c;
  maxRecordAge := maxRecordAge c; enableProviders := enableProviders c;
  enableValues := enableValues c; providersOptions := providersOptions c;
  queryPeerFilter := queryPeerFilter c; protectAllBuckets := protectAllBuckets c;
  protectedBuckets := protectedBuckets c; routingTable := routingTable c;
  v1CompatibleMode := v1CompatibleMode c; bootstrapPeers := bootstrapPeers c |}.

Definition set_validatorChanged v (c : config) := {|
  datastore := datastore c; validator := validator c; validatorChanged := v;
  mode := mode c; protocolPrefix := protocolPrefix c; bucketSize := bucketSize c;
  concurrency := concurrency c; resiliency := resiliency c;
  maxRecordAge := maxRecordAge c; enableProviders := enableProviders c;
  enableValues := enableValues c; providersOptions := providersOptions c;
  queryPeerFilter := queryPeerFilter c; protectAllBuckets := protectAllBuckets c;
  protectedBuckets := protectedBuckets c; routingTable := routingTable c;
  v1CompatibleMode := v1CompatibleMode c; bootstrapPeers := bootstrapPeers c |}.

Definition set_mode v (c : config) := {|
  datastore := datastore c; validator := validator c; validatorChanged := validatorChanged c;
  mode := v; protocolPrefix := protocolPrefix c; bucketSize := bucketSize c;
  concurrency := concurrency c; resiliency := resiliency c;
  maxRecordAge := maxRecordAge c; enableProviders := enableProviders c;
  enableValues := enableValues c; providersOptions := providersOptions c;
  queryPeerFilter := queryPeerFilter c; protectAllBuckets := protectAllBuckets c;
  protectedBuckets := protectedBuckets c; routingTable := routingTable c;
  v1CompatibleMode := v1CompatibleMode c; bootstrapPeers := bootstrapPeers c |}.

Definition set_protocolPrefix v (c : config) := {|
  datastore := datastore c; validator := validator c; validatorChanged := validatorChanged c;
  mode := mode c; protocolPrefix := v; bucketSize := bucketSize c;
  concurrency := concurrency c; resiliency := resiliency c;
  maxRecordAge := maxRecordAge c; enableProviders := enableProviders c;
  enableValues := enableValues c; providersOptions := providersOptions c;
  queryPeerFilter := queryPeerFilter c; protectAllBuckets := protectAllBuckets c;
  protectedBuckets := protectedBuckets c; routingTable := routingTable c;
  v1CompatibleMode := v1CompatibleMode c; bootstrapPeers := bootstrapPeers c |}.

Definition set_bucketSize v (c : config) := {|
  datastore := datastore c; validator := validator c; validatorChanged := validatorChanged c;
  mode := mode c; protocolPrefix := protocolPrefix c; bucketSize := v;
  concurrency := concurrency c; resiliency := resiliency c;
  maxRecordAge := maxRecordAge c; enableProviders := enableProviders c;
  enableValues := enableValues c; providersOptions := providersOptions c;
  queryPeerFilter := queryPeerFilter c; protectAllBuckets := protectAllBuckets c;
  protectedBuckets := protectedBuckets c; routingTable := routingTable c;
  v1CompatibleMode := v1CompatibleMode c; bootstrapPeers := bootstrapPeers c |}.

Definition set_concurrency v (c : config) := {|
  datastore := datastore c; validator := validator c; validatorChanged := validatorChanged c;
  mode := mode c; protocolPrefix := protocolPrefix c; bucketSize := bucketSize c;
  concurrency := v; resiliency := resiliency c;
  maxRecordAge := maxRecordAge c; enableProviders := enableProviders c;
  enableValues := enableValues c; providersOptions := providersOptions c;
  queryPeerFilter := queryPeerFilter c; protectAllBuckets := protectAllBuckets c;
  protectedBuckets := protectedBuckets c; routingTable := routingTable c;
  v1CompatibleMode := v1CompatibleMode c; bootstrapPeers := bootstrapPeers c |}.

Definition set_resiliency v (c : config) := {|
  datastore := datastore c; validator := validator c; validatorChanged := validatorChanged c;
  mode := mode c; protocolPrefix := protocolPrefix c; bucketSize := bucketSize c;
  concurrency := concurrency c; resiliency := v;
  maxRecordAge := maxRecordAge c; enableProviders := enableProviders c;
  enableValues := enableValues c; providersOptions := providersOptions c;
  queryPeerFilter := queryPeerFilter c; protectAllBuckets := protectAllBuckets c;
  protectedBuckets := protectedBuckets c; routingTable := routingTable c;
  v1CompatibleMode := v1CompatibleMode c; bootstrapPeers := bootstrapPeers c |}.

Definition set_maxRecordAge v (c : config) := {|
  datastore := datastore c; validator := validator c; validatorChanged := validatorChanged c;
  mode := mode c; protocolPrefix := protocolPrefix c; bucketSize := bucketSize c;
  concurrency := concurrency c; resiliency := resiliency c;
  maxRecordAge := v; enableProviders := enableProviders c;
  enableValues := enableValues c; providersOptions := providersOptions c;
  queryPeerFilter := queryPeerFilter c; protectAllBuckets := protectAllBuckets c;
  protectedBuckets := protectedBuckets c; routingTable := routingTable c;
  v1CompatibleMode := v1CompatibleMode c; bootstrapPeers := bootstrapPeers c |}.

Definition set_enableProviders v (c : config) := {|
  datastore := datastore c; validator := validator c; validatorChanged := validatorChanged c;
  mode := mode c; protocolPrefix := protocolPrefix c; bucketSize := bucketSize c;
  concurrency := concurrency c; resiliency := resiliency c;
  maxRecordAge := maxRecordAge c; enableProviders := v;
  enableValues := enableValues c; providersOptions := providersOptions c;
  queryPeerFilter := queryPeerFilter c; protectAllBuckets := protectAllBuckets c;
  protectedBuckets := protectedBuckets c; routingTable := routingTable c;
  v1CompatibleMode := v1CompatibleMode c; bootstrapPeers := bootstrapPeers c |}.

Definition set_enableValues v (c : config) := {|
  datastore := datastore c; validator := validator c; validatorChanged := validatorChanged c;
  mode := mode c; protocolPrefix := protocolPrefix c; bucketSize := bucketSize c;
  concurrency := concurrency c; resiliency := resiliency c;
  maxRecordAge := maxRecordAge c; enableProviders := enableProviders c;
  enableValues := v; providersOptions := providersOptions c;
  queryPeerFilter := queryPeerFilter c; protectAllBuckets := protectAllBuckets c;
  protectedBuckets := protectedBuckets c; routingTable := routingTable c;
  v1CompatibleMode := v1CompatibleMode c; bootstrapPeers := bootstrapPeers c |}.

Definition set_providersOptions v (c : config) := {|
  datastore := datastore c; validator := validator c; validatorChanged := validatorChanged c;
  mode := mode c; protocolPrefix := protocolPrefix c; bucketSize := bucketSize c;
  concurrency := concurrency c; resiliency := resiliency c;
  maxRecordAge := maxRecordAge c; enableProviders := enableProviders c;
  enableValues := enableValues c; providersOptions := v;
  queryPeerFilter := queryPeerFilter c; protectAllBuckets := protectAllBuckets c;
  protectedBuckets := protectedBuckets c; routingTable := routingTable c;
  v1CompatibleMode := v1CompatibleMode c; bootstrapPeers := bootstrapPeers c |}.

Definition set_queryPeerFilter v (c : config) := {|
  datastore := datastore c; validator := validator c; validatorChanged := validatorChanged c;
  mode := mode c; protocolPrefix := protocolPrefix c; bucketSize := bucketSize c;
  concurrency := concurrency c; resiliency := resiliency c;
  maxRecordAge := maxRecordAge c; enableProviders := enableProviders c;
  enableValues := enableValues c; providersOptions := providersOptions c;
  queryPeerFilter := v; protectAllBuckets := protectAllBuckets c;
  protectedBuckets := protectedBuckets c; routingTable := routingTable c;
  v1CompatibleMode := v1CompatibleMode c; bootstrapPeers := bootstrapPeers c |}.

Definition set_protectAllBuckets v (c : config) := {|
  datastore := datastore c; validator := validator c; validatorChanged := validatorChanged c;
  mode := mode c; protocolPrefix := protocolPrefix c; bucketSize := bucketSize c;
  concurrency := concurrency c; resiliency := resiliency c;
  maxRecordAge := maxRecordAge c; enableProviders := enableProviders c;
  enableValues := enableValues c; providersOptions := providersOptions c;
  queryPeerFilter := queryPeerFilter c; protectAllBuckets := v;
  protectedBuckets := protectedBuckets c; routingTable := routingTable c;
  v1CompatibleMode := v1CompatibleMode c; bootstrapPeers := bootstrapPeers c |}.

Definition set_protectedBuckets v (c : config) := {|
  datastore := datastore c; validator := validator c; validatorChanged := validatorChanged c;
  mode := mode c; protocolPrefix := protocolPrefix c; bucketSize := bucketSize c;
  concurrency := concurrency c; resiliency := resiliency c;
  maxRecordAge := maxRecordAge c; enableProviders := enableProviders c;
  enableValues := enableValues c; providersOptions := providersOptions c;
  queryPeerFilter := queryPeerFilter c; protectAllBuckets := protectAllBuckets c;
  protectedBuckets := v; routingTable := routingTable c;
  v1CompatibleMode := v1CompatibleMode c; bootstrapPeers := bootstrapPeers c |}.

Definition set_routingTable v (c : config) := {|
  datastore := datastore c; validator := validator c; validatorChanged := validatorChanged c;
  mode := mode c; protocolPrefix := protocolPrefix c; bucketSize := bucketSize c;
  concurrency := concurrency c; resiliency := resiliency c;
  maxRecordAge := maxRecordAge c; enableProviders := enableProviders c;
  enableValues := enableValues c; providersOptions := providersOptions c;
  queryPeerFilter := queryPeerFilter c; protectAllBuckets := protectAllBuckets c;
  protectedBuckets := protectedBuckets c; routingTable := v;
  v1CompatibleMode := v1CompatibleMode c; bootstrapPeers := bootstrapPeers c |}.

Definition set_v1CompatibleMode v (c : config) := {|
  datastore := datastore c; validator := validator c; validatorChanged := validatorChanged c;
  mode := mode c; protocolPrefix := protocolPrefix c; bucketSize := bucketSize c;
  concurrency := concurrency c; resiliency := resiliency c;
  maxRecordAge := maxRecordAge c; enableProviders := enableProviders c;
  enableValues := enableValues c; providersOptions := providersOptions c;
  queryPeerFilter := queryPeerFilter c; protectAllBuckets := protectAllBuckets c;
  protectedBuckets := protectedBuckets c; routingTable := routingTable c;
  v1CompatibleMode := v; bootstrapPeers := bootstrapPeers c |}.

Definition set_bootstrapPeers v (c : config) := {|
  datastore := datastore c; validator := validator c; validatorChanged := validatorChanged c;
  mode := mode c; protocolPrefix := protocolPrefix c; bucketSize := bucketSize c;
  concurrency := concurrency c; resiliency := resiliency c;
  maxRecordAge := maxRecordAge c; enableProviders := enableProviders c;
  enableValues := enableValues c; providersOptions := providersOptions c;
  queryPeerFilter := queryPeerFilter c; protectAllBuckets := protectAllBuckets c;
  protectedBuckets := protectedBuckets c; routingTable := routingTable c;
  v1CompatibleMode := v1CompatibleMode c; bootstrapPeers := v |}.

(** [c.routingTable.f = v] *)
Definition in_routingTable (f : routingTableConfig -> routingTableConfig)
    (c : config) : config :=
  set_routingTable (f (routingTable c)) c.


(** *** Options *)

(** What a call [opt(c)] of an [Option], or of a method of [*config]
    returning [error], leaves behind: the returned error and the config as
    the call left it, or a run-time panic. *)
Inductive outcome : Type :=
  | Returns (err : error) (c : config)
  | Panics.

(** The Go type [Option]: a function that takes the config by pointer and
    returns an [error]. *)
Definition Option : Type := config -> outcome.

(** [apply]: the loop over [opts], [i] being the index of the next option. *)
Fixpoint apply_from (i : nat) (opts : list Option) (c : config) : outcome :=
  match opts with
  | [] => Returns None c
  | opt :: opts' =>
      match opt c with
      | Returns None c' => apply_from (S i) opts' c'
      | Returns (Some err) c' =>
          Returns (Some ("dht option " +:+ pretty i +:+ " failed: " +:+ err)) c'
      | Panics => Panics
      end
  end.

Definition apply (opts : list Option) (c : config) : outcome :=
  apply_from 0 opts c.

(** [applyFallbacks].  The namespaced validator is a Go map, held by
    reference: the stores [nsval[k] = v] show through [c.validator]. *)
Definition applyFallbacks (h : Host) (c : config) : outcome :=
  if negb (validatorChanged c) then
    match validator c with
    | record.NamespacedValidator nsval =>
        let pk :=
          match map_index nsval "pk" with
          | None => map_assign nsval "pk" record.PublicKeyValidator
          | Some _ => Some nsval
          end in
        match pk with
        | None => Panics
        | Some nsval1 =>
            let ipns :=
              match map_index nsval1 "ipns" with
              | None => map_assign nsval1 "ipns" (record.IpnsValidator (Peerstore h))
              | Some _ => Some nsval1
              end in
            match ipns with
            | None => Panics
            | Some nsval2 =>
                Returns None (set_validator (record.NamespacedValidator nsval2) c)
            end
        end
    | _ =>
        Returns (Some "the default validator was changed without being marked as changed") c
    end
  else Returns None c.

Definition defaultBucketSize : Z := 20.

Definition defaults : Option := fun o =>
  let o := set_validator (record.NamespacedValidator (Some ∅)) o in
  let o := set_datastore (Some NewMapDatastore) o in
  let o := set_protocolPrefix DefaultPrefix o in
  let o := set_enableProviders true o in
  let o := set_enableValues true o in
  let o := set_queryPeerFilter (Some emptyQueryFilter) o in
  let o := in_routingTable (set_latencyTolerance Minute) o in
  let o := in_routingTable (set_refreshQueryTimeout (1 * Minute)) o in
  let o := in_routingTable (set_refreshInterval (10 * Minute)) o in
  let o := in_routingTable (set_autoRefresh true) o in
  let o := in_routingTable (set_peerFilter (Some emptyRTFilter)) o in
  let o := set_maxRecordAge (Hour * 36) o in
  let o := in_routingTable (set_considerLatency false) o in
  let o := in_routingTable
             (set_avgBitsImprovedPerStep (1.3327 + Log2 (IZR defaultBucketSize))%R) o in
  let o := in_routingTable (set_avgRoundTripPerStep 4%R) o in
  let o := set_bucketSize defaultBucketSize o in
  let o := set_concurrency 10 o in
  let o := set_resiliency 3 o in
  let o := set_protectAllBuckets false o in
  let o := set_protectedBuckets defaultProtectedBuckets o in
  let o := set_v1CompatibleMode true o in
  Returns None o.

(** [fmt.Errorf("protocol prefix %s " + what, DefaultPrefix)] *)
Definition prefix_error (what : string) : error :=
  Some ("protocol prefix " +:+ DefaultPrefix +:+ " " +:+ what).

Definition validate (c : config) : error :=
  if bool_decide (protocolPrefix c ≠ DefaultPrefix) then None
  else if bool_decide (bucketSize c ≠ defaultBucketSize) then
    prefix_error ("must use bucket size " +:+ pretty defaultBucketSize)
  else if negb (enableProviders c) then
    prefix_error "must have providers enabled"
  else if negb (enableValues c) then
    prefix_error "must have values enabled"
  else
    match validator c with
    | record.NamespacedValidator nsval =>
        if bool_decide (map_len nsval ≠ 2) then
          prefix_error "must have exactly two namespaced validators - /pk and /ipns"
        else
          match map_index nsval "pk" with
          | None => prefix_error "must support the /pk namespaced validator"
          | Some record.PublicKeyValidator =>
              match map_index nsval "ipns" with
              | None => prefix_error "must support the /ipns namespaced validator"
              | Some (record.IpnsValidator _) => None
              | Some _ => prefix_error "must use ipns.Validator for the /ipns namespace"
              end
          | Some _ =>
              prefix_error "must use the record.PublicKeyValidator for the /pk namespace"
          end
    | _ => prefix_error "must use a namespaced validator"
    end.

Definition RoutingTableLatencyTolerance (latency : Duration) : Option := fun c =>
  Returns None (in_routingTable (set_latencyTolerance latency) c).

Definition RoutingTableRefreshQueryTimeout (timeout : Duration) : Option := fun c =>
  Returns None (in_routingTable (set_refreshQueryTimeout timeout) c).

Definition RoutingTableRefreshPeriod (period : Duration) : Option := fun c =>
  Returns None (in_routingTable (set_refreshInterval period) c).

Definition Datastore (ds : option Batching) : Option := fun c =>
  Returns None (set_datastore ds c).

Definition Mode (m : ModeOpt) : Option := fun c =>
  Returns None (set_mode m c).

Definition Validator (v : record.Validator) : Option := fun c =>
  let c := set_validator v c in
  let c := set_validatorChanged true c in
  Returns None c.

Definition NamespacedValidator (ns : string) (v : record.Validator) : Option := fun c =>
  match validator c with
  | record.NamespacedValidator nsval =>
      match map_assign nsval ns v with
      | Some nsval' => Returns None (set_validator (record.NamespacedValidator nsval') c)
      | None => Panics
      end
  | _ => Returns (Some "can only add namespaced validators to a NamespacedValidator") c
  end.

Definition ProtocolPrefix (prefix : string) : Option := fun c =>
  Returns None (set_protocolPrefix prefix c).

Definition ProtocolExtension (ext : string) : Option := fun c =>
  Returns None (set_protocolPrefix (protocolPrefix c +:+ ext) c).

Definition BucketSize (bucketSize : Z) : Option := fun c =>
  Returns None (set_bucketSize bucketSize c).

Definition Concurrency (alpha : Z) : Option := fun c =>
  Returns None (set_concurrency alpha c).

Definition Resiliency (beta : Z) : Option := fun c =>
  Returns None (set_resiliency beta c).

Definition MaxRecordAge (maxAge : Duration) : Option := fun c =>
  Returns None (set_maxRecordAge maxAge c).

Definition DisableAutoRefresh : Option := fun c =>
  Returns None (in_routingTable (set_autoRefresh false) c).

Definition DisableProviders : Option := fun c =>
  Returns None (set_enableProviders false c).

Definition DisableValues : Option := fun c =>
  Returns None (set_enableValues false c).

Definition ProvidersOptions (opts : list ProvidersOption) : Option := fun c =>
  Returns None (set_providersOptions opts c).

Definition QueryFilter (filter : option QueryFilterFunc) : Option := fun c =>
  Returns None (set_queryPeerFilter filter c).

Definition RoutingTableFilter (filter : option RouteTableFilterFunc) : Option := fun c =>
  Returns None (in_routingTable (set_peerFilter filter) c).

Definition EnableProtectAllBuckets : Option := fun c =>
  Returns None (set_protectAllBuckets true c).

Definition ProtectedBuckets (maxCpl : Z) : Option := fun c =>
  Returns None (set_protectedBuckets maxCpl c).

Definition EnableConsiderLatency : Option := fun c =>
  Returns None (in_routingTable (set_considerLatency true) c).

Definition AvgBitsImprovedPerStep (avgBitsImprovedPerStep : R) : Option := fun c =>
  Returns None (in_routingTable (set_avgBitsImprovedPerStep avgBitsImprovedPerStep) c).

Definition AvgRoundTripPerStep (avgRoundTripPerStep : R) : Option := fun c =>
  Returns None (in_routingTable (set_avgRoundTripPerStep avgRoundTripPerStep) c).

Definition V1CompatibleMode (enable : bool) : Option := fun c =>
  Returns None (set_v1CompatibleMode enable c).

Definition BootstrapPeers (bootstrappers : list AddrInfo) : Option := fun c =>
  Returns None (set_bootstrapPeers bootstrappers c).


(** *** The fields of [config] and the exported option constructors *)

(** The fields of [config], those of the embedded [routingTable] struct
    included. *)
Inductive Field : Type :=
  | f_datastore | f_validator | f_validatorChanged | f_mode
  | f_protocolPrefix | f_bucketSize | f_concurrency | f_resiliency
  | f_maxRecordAge | f_enableProviders | f_enableValues
  | f_providersOptions | f_queryPeerFilter | f_protectAllBuckets
  | f_protectedBuckets
  | f_refreshQueryTimeout | f_refreshInterval | f_autoRefresh
  | f_latencyTolerance | f_peerFilter | f_considerLatency
  | f_avgBitsImprovedPerStep | f_avgRoundTripPerStep
  | f_v1CompatibleMode | f_bootstrapPeers.

(** [c] and [c'] hold the same value in field [f]. *)
Definition same_field (f : Field) (c c' : config) : Prop :=
  match f with
  | f_datastore => datastore c = datastore c'
  | f_validator => validator c = validator c'
  | f_validatorChanged => validatorChanged c = validatorChanged c'
  | f_mode => mode c = mode c'
  | f_protocolPrefix => protocolPrefix c = protocolPrefix c'
  | f_bucketSize => bucketSize c = bucketSize c'
  | f_concurrency => concurrency c = concurrency c'
  | f_resiliency => resiliency c = resiliency c'
  | f_maxRecordAge => maxRecordAge c = maxRecordAge c'
  | f_enableProviders => enableProviders c = enableProviders c'
  | f_enableValues => enableValues c = enableValues c'
  | f_providersOptions => providersOptions c = providersOptions c'
  | f_queryPeerFilter => queryPeerFilter c = queryPeerFilter c'
  | f_protectAllBuckets => protectAllBuckets c = protectAllBuckets c'
  | f_protectedBuckets => protectedBuckets c = protectedBuckets c'
  | f_refreshQueryTimeout =>
      refreshQueryTimeout (routingTable c) = refreshQueryTimeout (routingTable c')
  | f_refreshInterval =>
      refreshInterval (routingTable c) = refreshInterval (routingTable c')
  | f_autoRefresh => autoRefresh (routingTable c) = autoRefresh (routingTable c')
  | f_latencyTolerance =>
      latencyTolerance (routingTable c) = latencyTolerance (routingTable c')
  | f_peerFilter => peerFilter (routingTable c) = peerFilter (routingTable c')
  | f_considerLatency =>
      considerLatency (routingTable c) = considerLatency (routingTable c')
  | f_avgBitsImprovedPerStep =>
      avgBitsImprovedPerStep (routingTable c) = avgBitsImprovedPerStep (routingTable c')
  | f_avgRoundTripPerStep =>
      avgRoundTripPerStep (routingTable c) = avgRoundTripPerStep (routingTable c')
  | f_v1CompatibleMode => v1CompatibleMode c = v1CompatibleMode c'
  | f_bootstrapPeers => bootstrapPeers c = bootstrapPeers c'
  end.

(** A call of one of the option constructors the package exports. *)
Inductive Call : Type :=
  | call_RoutingTableLatencyTolerance (latency : Duration)
  | call_RoutingTableRefreshQueryTimeout (timeout : Duration)
  | call_RoutingTableRefreshPeriod (period : Duration)
  | call_Datastore (ds : option Batching)
  | call_Mode (m : ModeOpt)
  | call_Validator (v : record.Validator)
  | call_NamespacedValidator (ns : string) (v : record.Validator)
  | call_ProtocolPrefix (prefix : string)
  | call_ProtocolExtension (ext : string)
  | call_BucketSize (bucketSize : Z)
  | call_Concurrency (alpha : Z)
  | call_Resiliency (beta : Z)
  | call_MaxRecordAge (maxAge : Duration)
  | call_DisableAutoRefresh
  | call_DisableProviders
  | call_DisableValues
  | call_ProvidersOptions (opts : list ProvidersOption)
  | call_QueryFilter (filter : option QueryFilterFunc)
  | call_RoutingTableFilter (filter : option RouteTableFilterFunc)
  | call_EnableProtectAllBuckets
  | call_ProtectedBuckets (maxCpl : Z)
  | call_EnableConsiderLatency
  | call_AvgBitsImprovedPerStep (x : R)
  | call_AvgRoundTripPerStep (x : R)
  | call_V1CompatibleMode (enable : bool)
  | call_BootstrapPeers (bootstrappers : list AddrInfo).

(** The [Option] a call returns. *)
Definition option_of (k : Call) : Option :=
  match k with
  | call_RoutingTableLatencyTolerance latency => RoutingTableLatencyTolerance latency
  | call_RoutingTableRefreshQueryTimeout timeout => RoutingTableRefreshQueryTimeout timeout
  | call_RoutingTableRefreshPeriod period => RoutingTableRefreshPeriod period
  | call_Datastore ds => Datastore ds
  | call_Mode m => Mode m
  | call_Validator v => Validator v
  | call_NamespacedValidator ns v => NamespacedValidator ns v
  | call_ProtocolPrefix prefix => ProtocolPrefix prefix
  | call_ProtocolExtension ext => ProtocolExtension ext
  | call_BucketSize k => BucketSize k
  | call_Concurrency alpha => Concurrency alpha
  | call_Resiliency beta => Resiliency beta
  | call_MaxRecordAge maxAge => MaxRecordAge maxAge
  | call_DisableAutoRefresh => DisableAutoRefresh
  | call_DisableProviders => DisableProviders
  | call_DisableValues => DisableValues
  | call_ProvidersOptions opts => ProvidersOptions opts
  | call_QueryFilter filter => QueryFilter filter
  | call_RoutingTableFilter filter => RoutingTableFilter filter
  | call_EnableProtectAllBuckets => EnableProtectAllBuckets
  | call_ProtectedBuckets maxCpl => ProtectedBuckets maxCpl
  | call_EnableConsiderLatency => EnableConsiderLatency
  | call_AvgBitsImprovedPerStep x => AvgBitsImprovedPerStep x
  | call_AvgRoundTripPerStep x => AvgRoundTripPerStep x
  | call_V1CompatibleMode enable => V1CompatibleMode enable
  | call_BootstrapPeers bootstrappers => BootstrapPeers bootstrappers
  end.

(** The fields the body of the option assigns to. *)
Definition assigned (k : Call) : list Field :=
  match k with
  | call_RoutingTableLatencyTolerance _ => [f_latencyTolerance]
  | call_RoutingTableRefreshQueryTimeout _ => [f_refreshQueryTimeout]
  | call_RoutingTableRefreshPeriod _ => [f_refreshInterval]
  | call_Datastore _ => [f_datastore]
  | call_Mode _ => [f_mode]
  | call_Validator _ => [f_validator; f_validatorChanged]
  | call_NamespacedValidator _ _ => [f_validator]
  | call_ProtocolPrefix _ => [f_protocolPrefix]
  | call_ProtocolExtension _ => [f_protocolPrefix]
  | call_BucketSize _ => [f_bucketSize]
  | call_Concurrency _ => [f_concurrency]
  | call_Resiliency _ => [f_resiliency]
  | call_MaxRecordAge _ => [f_maxRecordAge]
  | call_DisableAutoRefresh => [f_autoRefresh]
  | call_DisableProviders => [f_enableProviders]
  | call_DisableValues => [f_enableValues]
  | call_ProvidersOptions _ => [f_providersOptions]
  | call_QueryFilter _ => [f_queryPeerFilter]
  | call_RoutingTableFilter _ => [f_peerFilter]
  | call_EnableProtectAllBuckets => [f_protectAllBuckets]
  | call_ProtectedBuckets _ => [f_protectedBuckets]
  | call_EnableConsiderLatency => [f_considerLatency]
  | call_AvgBitsImprovedPerStep _ => [f_avgBitsImprovedPerStep]
  | call_AvgRoundTripPerStep _ => [f_avgRoundTripPerStep]
  | call_V1CompatibleMode _ => [f_v1CompatibleMode]
  | call_BootstrapPeers _ => [f_bootstrapPeers]
  end.

(** The config a call left behind ([zero] after a panic). *)
Definition config_of (o : outcome) : config :=
  match o with
  | Returns _ c => c
  | Panics => zero
  end.

(** What the reserved prefix requires of a config: the default bucket size,
    providers and values enabled, and a namespaced validator holding the two
    namespaces ["pk"] and ["ipns"] and no other, bound to a
    [record.PublicKeyValidator] and to an [ipns.Validator]. *)
Definition reserved_ok (c : config) : Prop :=
  bucketSize c = defaultBucketSize /\
  enableProviders c = true /\
  enableValues c = true /\
  exists kb : KeyBook,
    validator c =
      record.NamespacedValidator
        (Some {[ "pk" := record.PublicKeyValidator; "ipns" := record.IpnsValidator kb ]}).

(** What the body of the option stores: the value every field it assigns
    to holds in the config [c'] the call leaves, [c] being the config it
    was called on. *)
Definition stored (k : Call) (c c' : config) : Prop :=
  match k with
  | call_RoutingTableLatencyTolerance latency =>
      latencyTolerance (routingTable c') = latency
  | call_RoutingTableRefreshQueryTimeout timeout =>
      refreshQueryTimeout (routingTable c') = timeout
  | call_RoutingTableRefreshPeriod period =>
      refreshInterval (routingTable c') = period
  | call_Datastore ds => datastore c' = ds
  | call_Mode m => mode c' = m
  | call_Validator v => validator c' = v /\ validatorChanged c' = true
  | call_NamespacedValidator ns v =>
      exists g : gmap string record.Validator,
        validator c = record.NamespacedValidator (Some g) /\
        validator c' = record.NamespacedValidator (Some (<[ns := v]> g))
  | call_ProtocolPrefix prefix => protocolPrefix c' = prefix
  | call_ProtocolExtension ext => protocolPrefix c' = protocolPrefix c +:+ ext
  | call_BucketSize k => bucketSize c' = k
  | call_Concurrency alpha => concurrency c' = alpha
  | call_Resiliency beta => resiliency c' = beta
  | call_MaxRecordAge maxAge => maxRecordAge c' = maxAge
  | call_DisableAutoRefresh => autoRefresh (routingTable c') = false
  | call_DisableProviders => enableProviders c' = false
  | call_DisableValues => enableValues c' = false
  | call_ProvidersOptions opts => providersOptions c' = opts
  | call_QueryFilter filter => queryPeerFilter c' = filter
  | call_RoutingTableFilter filter => peerFilter (routingTable c') = filter
  | call_EnableProtectAllBuckets => protectAllBuckets c' = true
  | call_ProtectedBuckets maxCpl => protectedBuckets c' = maxCpl
  | call_EnableConsiderLatency => considerLatency (routingTable c') = true
  | call_AvgBitsImprovedPerStep x => avgBitsImprovedPerStep (routingTable c') = x
  | call_AvgRoundTripPerStep x => avgRoundTripPerStep (routingTable c') = x
  | call_V1CompatibleMode enable => v1CompatibleMode c' = enable
  | call_BootstrapPeers bootstrappers => bootstrapPeers c' = bootstrappers
  end.

(** The dynamic type of a validator is [record.NamespacedValidator]: the
    type assertion [v.(record.NamespacedValidator)] succeeds. *)
Definition isNamespaced (v : record.Validator) : bool :=
  match v with
  | record.NamespacedValidator _ => true
  | _ => false
  end.

(** The fields [validate] reads. *)
Definition validated_fields : list Field :=
  [f_protocolPrefix; f_bucketSize; f_enableProviders; f_enableValues; f_validator].

(** The validators [applyFallbacks] stores for host [h]. *)
Definition fallback_validators (h : Host) : gmap string record.Validator :=
  {[ "pk" := record.PublicKeyValidator;
     "ipns" := record.IpnsValidator (Peerstore h) ]}.

End WithImports.
End Options.

(** * notif.go *)

(** ** Channels *)

(** A Go channel seen from its senders: the capacity it was made with and
    the values buffered in it, oldest first.  No receiver is modelled, so a
    send finds no waiting receiver and succeeds only into free buffer
    space. *)
Record chan (A : Type) : Type := {
  chan_cap : nat;
  chan_buf : list A
}.
Arguments chan_cap {A} _.
Arguments chan_buf {A} _.

(** [select { case ch <- x: default: }]: the channel afterwards, and whether
    the send case was taken. *)
Definition try_send {A} (ch : chan A) (x : A) : chan A * bool :=
  if (length (chan_buf ch) <? chan_cap ch)%nat
  then ({| chan_cap := chan_cap ch; chan_buf := chan_buf ch ++ [x] |}, true)
  else (ch, false).

(** A channel holds no more than its capacity. *)
Definition chan_ok {A} (ch : chan A) : Prop :=
  (length (chan_buf ch) <= chan_cap ch)%nat.

(** Modelled from the spec: the refresh-request channel, made where the DHT
    is constructed (outside this development); the spec gives it capacity 1. *)
Definition make_triggerRtRefresh {A} : chan A :=
  {| chan_cap := 1; chan_buf := [] |}.

(** ** Collaborators of the notifiee *)

(** [peer.ID] is a Go string. *)
Definition PeerID : Type := string.

(** The interfaces [notif.go] calls into, and the package-level
    [minRTRefreshThreshold] declared outside this development.  The outcome
    of network I/O ([NewStream], protocol negotiation) is what the
    connection, resp. the stream, answers. *)
Class Collaborators : Type := {
  (* network.Conn *)
  Conn : Type;
  RemotePeer : Conn -> PeerID;
  Stream : Type;
  (* v.NewStream(): [None] is a non-nil error *)
  NewStream : Conn -> option Stream;
  (* mstream.SelectOneOf(protos, s): [None] is a non-nil error *)
  SelectOneOf : list string -> Stream -> option string;
  (* peerstore *)
  PeerstoreT : Type;
  SupportsProtocols : PeerstoreT -> PeerID -> list string -> list string * error;
  AddProtocols : PeerstoreT -> PeerID -> list string -> PeerstoreT;
  (* the routing table; [Update] is what dht.Update(ctx, p) does to it *)
  RoutingTable : Type;
  Size : RoutingTable -> Z;
  Update : RoutingTable -> PeerID -> RoutingTable;
  Remove : RoutingTable -> PeerID -> RoutingTable;
  (* host.ConnManager() *)
  ConnManager : Type;
  Unprotect : ConnManager -> PeerID -> string -> ConnManager;
  (* what dht.Update(ctx, p) does to the connection manager when the table
     is [rt]: the peers of the protected buckets get their connection
     protected on admission *)
  UpdateProtection : RoutingTable -> PeerID -> ConnManager -> ConnManager;
  (* *messageSender *)
  MessageSender : Type;
  minRTRefreshThreshold : Z
}.

Module Notif.

Section WithCollaborators.
Context `{Collaborators}.

(** Work started with [go] and not awaited. *)
Inductive Task : Type :=
  | go_testConnection (v : Conn)
  | go_invalidate (ms : MessageSender).

(** The calls a handler makes that act on a collaborator, in order. *)
Inductive Event : Type :=
  | EvUpdate (p : PeerID)
  | EvRemove (p : PeerID)
  | EvUnprotect (p : PeerID) (tag : string)
  | EvAddProtocols (p : PeerID) (protos : list string)
  | EvNewStream (v : Conn)
  | EvFullClose (s : Stream)
  | EvSend (taken : bool)
  | EvGo (t : Task).

(** The part of [IpfsDHT] and of its host that the notifiee reads or
    writes.  [connected p] is
    [dht.host.Network().Connectedness(p) == network.Connected], and the
    elements of [triggerRtRefresh] are reply channels ([None] is the [nil]
    the handlers send). *)
Record IpfsDHT : Type := {
  closing : bool;
  peerstore : PeerstoreT;
  protocolStrs : list string;
  connected : PeerID -> bool;
  netPeers : list PeerID;
  routingTable : RoutingTable;
  connManager : ConnManager;
  autoRefresh : bool;
  triggerRtRefresh : chan (option nat);
  strmap : gmap PeerID MessageSender;
  trace : list Event
}.

Definition set_peerstore v (d : IpfsDHT) := {|
  closing := closing d; peerstore := v; protocolStrs := protocolStrs d;
  connected := connected d; netPeers := netPeers d;
  routingTable := routingTable d; connManager := connManager d;
  autoRefresh := autoRefresh d; triggerRtRefresh := triggerRtRefresh d;
  strmap := strmap d; trace := trace d |}.

Definition set_routingTable v (d : IpfsDHT) := {|
  closing := closing d; peerstore := peerstore d; protocolStrs := protocolStrs d;
  connected := connected d; netPeers := netPeers d;
  routingTable := v; connManager := connManager d;
  autoRefresh := autoRefresh d; triggerRtRefresh := triggerRtRefresh d;
  strmap := strmap d; trace := trace d |}.

Definition set_connManager v (d : IpfsDHT) := {|
  closing := closing d; peerstore := peerstore d; protocolStrs := protocolStrs d;
  connected := connected d; netPeers := netPeers d;
  routingTable := routingTable d; connManager := v;
  autoRefresh := autoRefresh d; triggerRtRefresh := triggerRtRefresh d;
  strmap := strmap d; trace := trace d |}.

Definition set_triggerRtRefresh v (d : IpfsDHT) := {|
  closing := closing d; peerstore := peerstore d; protocolStrs := protocolStrs d;
  connected := connected d; netPeers := netPeers d;
  routingTable := routingTable d; connManager := connManager d;
  autoRefresh := autoRefresh d; triggerRtRefresh := v;
  strmap := strmap d; trace := trace d |}.

Definition set_strmap v (d : IpfsDHT) := {|
  closing := closing d; peerstore := peerstore d; protocolStrs := protocolStrs d;
  connected := connected d; netPeers := netPeers d;
  routingTable := routingTable d; connManager := connManager d;
  autoRefresh := autoRefresh d; triggerRtRefresh := triggerRtRefresh d;
  strmap := v; trace := trace d |}.

(** Append an event to the trace. *)
Definition emit (e : Event) (d : IpfsDHT) := {|
  closing := closing d; peerstore := peerstore d; protocolStrs := protocolStrs d;
  connected := connected d; netPeers := netPeers d;
  routingTable := routingTable d; connManager := connManager d;
  autoRefresh := autoRefresh d; triggerRtRefresh := triggerRtRefresh d;
  strmap := strmap d; trace := trace d ++ [e] |}.

(** *** The calls of the handlers *)

(** [dht.Update(dht.Context(), p)]: the method is declared outside this
    development; it acts on the routing table and, protecting the admitted
    peer or not, on the connection manager. *)
Definition dht_Update (p : PeerID) (dht : IpfsDHT) : IpfsDHT :=
  emit (EvUpdate p)
    (set_connManager (UpdateProtection (routingTable dht) p (connManager dht))
       (set_routingTable (Update (routingTable dht) p) dht)).

(** [dht.routingTable.Remove(p)] *)
Definition rt_Remove (p : PeerID) (dht : IpfsDHT) : IpfsDHT :=
  emit (EvRemove p) (set_routingTable (Remove (routingTable dht) p) dht).

(** [dht.host.ConnManager().Unprotect(p, tag)] *)
Definition cm_Unprotect (p : PeerID) (tag : string) (dht : IpfsDHT) : IpfsDHT :=
  emit (EvUnprotect p tag) (set_connManager (Unprotect (connManager dht) p tag) dht).

(** [dht.peerstore.AddProtocols(p, selected)] *)
Definition ps_AddProtocols (p : PeerID) (selected : string) (dht : IpfsDHT) : IpfsDHT :=
  emit (EvAddProtocols p [selected])
       (set_peerstore (AddProtocols (peerstore dht) p [selected]) dht).

(** [select { case dht.triggerRtRefresh <- nil: default: }] *)
Definition signal_refresh (dht : IpfsDHT) : IpfsDHT :=
  let '(ch, taken) := try_send (triggerRtRefresh dht) None in
  emit (EvSend taken) (set_triggerRtRefresh ch dht).

(** The block run with [dht.plk] held, the same in [Connected] (lines 42-51)
    and in [testConnection] (lines 88-97). *)
Definition update_if_connected (p : PeerID) (dht : IpfsDHT) : IpfsDHT :=
  if connected dht p then
    let refresh := bool_decide (Size (routingTable dht) <= minRTRefreshThreshold) in
    let dht := dht_Update p dht in
    if refresh && autoRefresh dht then signal_refresh dht else dht
  else dht.

(** [err == nil && len(protos) != 0] for
    [dht.peerstore.SupportsProtocols(p, dht.protocolStrs()...)] *)
Definition supports (dht : IpfsDHT) (p : PeerID) : bool :=
  let '(protos, err) := SupportsProtocols (peerstore dht) p (protocolStrs dht) in
  bool_decide (err = None) && bool_decide (length protos ≠ 0%nat).

(** *** The handlers

    Each handler is one step on the state it finds: the handlers serialise
    on [dht.plk], and what they read before taking it (the closing signal,
    the peerstore) is read from the same state. *)

Definition Connected (v : Conn) (dht : IpfsDHT) : IpfsDHT :=
  if closing dht then dht
  else
    let p := RemotePeer v in
    if supports dht p then update_if_connected p dht
    else emit (EvGo (go_testConnection v)) dht.

Definition testConnection (v : Conn) (dht : IpfsDHT) : IpfsDHT :=
  let p := RemotePeer v in
  let dht := emit (EvNewStream v) dht in
  match NewStream v with
  | None => dht
  | Some s =>
      match SelectOneOf (protocolStrs dht) s with
      | None => emit (EvFullClose s) dht
      | Some selected =>
          let dht := ps_AddProtocols p selected dht in
          let dht := update_if_connected p dht in
          emit (EvFullClose s) dht
      end
  end.

(** The loop body of [Disconnected] for one connected peer [q]. *)
Definition readmit (dht : IpfsDHT) (q : PeerID) : IpfsDHT :=
  if supports dht q then dht_Update q dht else dht.

Definition Disconnected (v : Conn) (dht : IpfsDHT) : IpfsDHT :=
  if closing dht then dht
  else
    let p := RemotePeer v in
    if connected dht p then dht
    else
      let dht := rt_Remove p dht in
      let dht := cm_Unprotect p "routingTable" dht in
      let dht :=
        if bool_decide (Size (routingTable dht) < minRTRefreshThreshold)
        then foldl readmit dht (netPeers dht)
        else dht in
      match strmap dht !! p with
      | None => dht
      | Some ms =>
          let dht := set_strmap (delete p (strmap dht)) dht in
          emit (EvGo (go_invalidate ms)) dht
      end.

(** The number of refresh sends attempted in a trace, taken or not. *)
Definition is_send (e : Event) : bool :=
  match e with
  | EvSend _ => true
  | _ => false
  end.

Definition sends (tr : list Event) : nat := length (List.filter is_send tr).

(** The peers [dht.Update] was called for in a trace, in order. *)
Definition updates (tr : list Event) : list PeerID :=
  omap (fun e => match e with EvUpdate p => Some p | _ => None end) tr.

(** [n] executions in a row of the refresh-signal statement. *)
Definition signal_refresh_n (n : nat) (dht : IpfsDHT) : IpfsDHT :=
  Nat.iter n signal_refresh dht.

(** A notification delivered to the notifiee, or a probe started by
    [Connected] getting to run. *)
Inductive Notification : Type :=
  | on_Connected (v : Conn)
  | on_Disconnected (v : Conn)
  | run_testConnection (v : Conn).

Definition handle (dht : IpfsDHT) (n : Notification) : IpfsDHT :=
  match n with
  | on_Connected v => Connected v dht
  | on_Disconnected v => Disconnected v dht
  | run_testConnection v => testConnection v dht
  end.

(** The handlers run one after the other, nothing receiving from
    [triggerRtRefresh] in between. *)
Definition run (ns : list Notification) (dht : IpfsDHT) : IpfsDHT :=
  foldl handle dht ns.

(** The tasks started with [go] in a trace, in order. *)
Definition spawned (tr : list Event) : list Task :=
  omap (fun e => match e with EvGo t => Some t | _ => None end) tr.

(** A notification from the network, as opposed to a probe getting to
    run. *)
Definition from_network (n : Notification) : bool :=
  match n with
  | on_Connected _ | on_Disconnected _ => true
  | run_testConnection _ => false
  end.

End WithCollaborators.
End Notif.

(** * Concrete collaborators

    Small implementations of the imported interfaces, on which the
    definitions above run. *)

Module Sample.

(** Datastores, hosts and filters are counted by number; a host's key book
    is the host itself. *)
Definition imports : Imports := {|
  Batching := nat;
  NewMapDatastore := 0%nat;
  Host := nat;
  KeyBook := nat;
  Peerstore := fun h => h;
  AddrInfo := string;
  UserValidator := string;
  ProvidersOption := nat;
  QueryFilterFunc := nat;
  emptyQueryFilter := 0%nat;
  RouteTableFilterFunc := nat;
  emptyRTFilter := 0%nat;
  defaultProtectedBuckets := 1
|}.

(** A connection is its remote peer and the stream [NewStream] would open,
    if any; a stream is the protocol the remote side would agree on, if
    any.  The peerstore maps a peer to its recorded protocols, the routing
    table and the connection manager are duplicate-free lists, and every
    admitted peer is protected. *)
Definition collaborators (threshold : Z) : Collaborators := {|
  Conn := PeerID * option (option string);
  RemotePeer := fst;
  Stream := option string;
  NewStream := snd;
  SelectOneOf := fun protos s =>
    match s with
    | Some x => if bool_decide (x ∈ protos) then Some x else None
    | None => None
    end;
  PeerstoreT := gmap PeerID (list string);
  SupportsProtocols := fun ps p protos =>
    (List.filter (fun x => bool_decide (x ∈ default [] (ps !! p))) protos, None);
  AddProtocols := fun ps p protos => <[p := protos ++ default [] (ps !! p)]> ps;
  RoutingTable := list PeerID;
  Size := fun rt => Z.of_nat (length rt);
  Update := fun rt p => if bool_decide (p ∈ rt) then rt else rt ++ [p];
  Remove := fun rt p => List.filter (fun q => bool_decide (q ≠ p)) rt;
  ConnManager := list (PeerID * string);
  Unprotect := fun cm p tag => List.filter (fun e => bool_decide (e ≠ (p, tag))) cm;
  UpdateProtection := fun _ p cm =>
    if bool_decide ((p, "routingTable") ∈ cm) then cm else cm ++ [(p, "routingTable")];
  MessageSender := nat;
  minRTRefreshThreshold := threshold
|}.

Definition host : @Host imports := 7%nat.

(** The config after [defaults] alone, after the fallbacks for [host], and
    after replacing the validator by a plain public-key validator. *)
Definition default_config : @Options.config imports :=
  Options.config_of (Options.apply [Options.defaults] Options.zero).

Definition ready_config : @Options.config imports :=
  Options.config_of (Options.applyFallbacks host default_config).

Definition replaced_config : @Options.config imports :=
  Options.config_of
    (Options.apply [Options.defaults; Options.Validator record.PublicKeyValidator]
       Options.zero).

(** The collaborators with the threshold of 20 that the spec's scenarios
    use. *)
Definition net : Collaborators := collaborators 20.

Definition table (l : list PeerID) : @RoutingTable net := l.
Definition protocols (m : gmap PeerID (list string)) : @PeerstoreT net := m.
Definition protections (l : list (PeerID * string)) : @ConnManager net := l.
Definition sender : @MessageSender net := 1%nat.
Definition senders (m : gmap PeerID nat) : gmap PeerID (@MessageSender net) := m.

(** A node with 19 peers in its routing table, and a connected peer
    ["QmPeer"] whose DHT protocol is recorded in the peerstore. *)
Definition dht19 : @Notif.IpfsDHT net := {|
  Notif.closing := false;
  Notif.peerstore := protocols {[ "QmPeer" := ["/ipfs/kad/1.0.0"] ]};
  Notif.protocolStrs := ["/ipfs/kad/1.0.0"];
  Notif.connected := fun p => bool_decide (p = "QmPeer");
  Notif.netPeers := ["QmPeer"];
  Notif.routingTable := table (pretty <$> seq 0 19);
  Notif.connManager := protections [];
  Notif.autoRefresh := true;
  Notif.triggerRtRefresh := make_triggerRtRefresh;
  Notif.strmap := senders ∅;
  Notif.trace := []
|}.

(** A node with two peers in its routing table: ["QmGone"], no longer
    connected, and ["QmStay"]; of the connected peers ["QmStay"] and
    ["QmNew"] have the DHT protocol recorded, ["QmOther"] has not. *)
Definition dht2 : @Notif.IpfsDHT net := {|
  Notif.closing := false;
  Notif.peerstore :=
    protocols {[ "QmStay" := ["/ipfs/kad/1.0.0"]; "QmNew" := ["/ipfs/kad/1.0.0"] ]};
  Notif.protocolStrs := ["/ipfs/kad/1.0.0"];
  Notif.connected := fun p => bool_decide (p ≠ "QmGone");
  Notif.netPeers := ["QmStay"; "QmOther"; "QmNew"];
  Notif.routingTable := table ["QmGone"; "QmStay"];
  Notif.connManager := protections [("QmGone", "routingTable")];
  Notif.autoRefresh := true;
  Notif.triggerRtRefresh := make_triggerRtRefresh;
  Notif.strmap := senders {[ "QmGone" := sender ]};
  Notif.trace := []
|}.

(** Connections to ["QmPeer"] and ["QmGone"], one on which no stream can be
    opened, and one whose remote side agrees on no protocol. *)
Definition conn_peer : @Conn net := ("QmPeer", Some (Some "/ipfs/kad/1.0.0")).
Definition conn_gone : @Conn net := ("QmGone", None).
Definition conn_broken : @Conn net := ("QmBroken", None).
Definition conn_foreign : @Conn net := ("QmForeign", Some (Some "/other/1.0.0")).

(** A node that is shutting down. *)
Definition dht_closing : @Notif.IpfsDHT net := {|
  Notif.closing := true;
  Notif.peerstore := protocols {[ "QmPeer" := ["/ipfs/kad/1.0.0"] ]};
  Notif.protocolStrs := ["/ipfs/kad/1.0.0"];
  Notif.connected := fun p => bool_decide (p = "QmPeer");
  Notif.netPeers := ["QmPeer"];
  Notif.routingTable := table ["QmGone"];
  Notif.connManager := protections [];
  Notif.autoRefresh := true;
  Notif.triggerRtRefresh := make_triggerRtRefresh;
  Notif.strmap := senders {[ "QmGone" := sender ]};
  Notif.trace := []
|}.

(** A node with auto-refresh off and 22 peers in its routing table, among
    them ["QmGone"], whose protocol is recorded but who is not connected. *)
Definition dht22 : @Notif.IpfsDHT net := {|
  Notif.closing := false;
  Notif.peerstore := protocols {[ "QmGone" := ["/ipfs/kad/1.0.0"] ]};
  Notif.protocolStrs := ["/ipfs/kad/1.0.0"];
  Notif.connected := fun p => bool_decide (p = "QmPeer");
  Notif.netPeers := ["QmPeer"];
  Notif.routingTable := table ("QmGone" :: (pretty <$> seq 0 21));
  Notif.connManager := protections [];
  Notif.autoRefresh := false;
  Notif.triggerRtRefresh := make_triggerRtRefresh;
  Notif.strmap := senders ∅;
  Notif.trace := []
|}.

(** Another host, and the config built from the zero value by replacing the
    validator and setting a bucket size of 8. *)
Definition host' : @Host imports := 9%nat.

Definition small_bucket_config : @Options.config imports :=
  Options.config_of
    (Options.apply [Options.Validator record.PublicKeyValidator; Options.BucketSize 8]
       Options.zero).

End Sample.

(** * Properties of dht_options.go *)

Module OptionsSpec.
Import Options.

(** Solves [x ∉ [a; b; ...]] for constructors told apart by
    [discriminate]. *)
Ltac not_among :=
  let Hin := fresh "Hin" in
  intros Hin;
  repeat (apply elem_of_cons in Hin as [Hin|Hin]; [discriminate Hin|]);
  apply elem_of_nil in Hin; exact Hin.

Section WithImports.
Context `{Imports}.

(** A map with two entries, among them ["pk"] and ["ipns"], has no other
    entry. *)
Lemma two_namespaces {V} (g : gmap string V) (a b : V) :
  size g = 2%nat -> g !! "pk" = Some a -> g !! "ipns" = Some b ->
  g = {[ "pk" := a; "ipns" := b ]}.
Proof.
  intros Hsize Hpk Hipns.
  assert (Hne : "pk" ≠ "ipns") by discriminate.
  assert (Hrest : delete "ipns" (delete "pk" g) = ∅).
  { apply map_size_empty_inv.
    rewrite map_size_delete_Some by (rewrite lookup_delete_ne by done; eauto).
    rewrite map_size_delete_Some by eauto.
    rewrite Hsize. reflexivity. }
  rewrite <- (insert_delete_id g "pk" a Hpk).
  rewrite <- (insert_delete_id (delete "pk" g) "ipns" b)
    by (rewrite lookup_delete_ne by done; exact Hipns).
  rewrite Hrest. reflexivity.
Qed.

Lemma two_namespaces_size {V} (a b : V) :
  size ({[ "pk" := a; "ipns" := b ]} : gmap string V) = 2%nat.
Proof.
  rewrite map_size_insert_None by (rewrite lookup_singleton_ne; [done|discriminate]).
  rewrite map_size_singleton. reflexivity.
Qed.

Lemma validate_reserved_ok (c : config) :
  protocolPrefix c = DefaultPrefix -> reserved_ok c -> validate c = None.
Proof.
  intros Hp (Hb & Hprov & Hval & kb & Hv).
  unfold validate.
  rewrite bool_decide_eq_false_2 by (intros Hn; apply Hn; exact Hp).
  rewrite bool_decide_eq_false_2 by (intros Hn; apply Hn; exact Hb).
  rewrite Hprov, Hval, Hv. simpl.
  rewrite bool_decide_eq_false_2
    by (intros Hn; apply Hn; rewrite two_namespaces_size; reflexivity).
  rewrite lookup_insert_eq.
  rewrite lookup_insert_ne by discriminate.
  rewrite lookup_singleton_eq. reflexivity.
Qed.

Lemma validate_reserved_inv (c : config) :
  protocolPrefix c = DefaultPrefix -> validate c = None -> reserved_ok c.
Proof.
  intros Hp. unfold validate, reserved_ok, prefix_error.
  rewrite bool_decide_eq_false_2 by (intros Hn; apply Hn; exact Hp).
  case_bool_decide as Hb; [discriminate|].
  destruct (enableProviders c); [|discriminate].
  destruct (enableValues c); [|discriminate]. simpl.
  destruct (validator c) as [| | |nsval|]; try discriminate.
  case_bool_decide as Hlen; [discriminate|].
  destruct nsval as [g|]; simpl in *; [|discriminate].
  destruct (g !! "pk") as [[| | | |]|] eqn:Hpk; try discriminate.
  destruct (g !! "ipns") as [[|  |kb| |]|] eqn:Hipns; try discriminate.
  intros _. repeat split; [exact Hb|].
  exists kb. do 2 f_equal. apply two_namespaces; [lia|done|done].
Qed.


(** *** [applyFallbacks] *)

(** Storing the two defaults where they are missing is a left-biased union
    with the map of defaults. *)
Lemma fill_defaults {V} (g : gmap string V) (a b : V) :
  let g1 := match g !! "pk" with None => <["pk" := a]> g | Some _ => g end in
  match g1 !! "ipns" with None => <["ipns" := b]> g1 | Some _ => g1 end
  = g ∪ {[ "pk" := a; "ipns" := b ]}.
Proof.
  assert (Hne : "pk" ≠ "ipns") by discriminate.
  apply map_eq. intros k. rewrite lookup_union.
  destruct (g !! "pk") as [x|] eqn:Hpk; simpl;
    [|rewrite lookup_insert_ne by done];
    destruct (g !! "ipns") as [y|] eqn:Hipns;
    (destruct (decide (k = "pk")) as [E1|N1];
      [subst k|destruct (decide (k = "ipns")) as [E2|N2]; [subst k|]]);
    rewrite ?lookup_insert_eq, ?lookup_insert_ne, ?lookup_singleton_eq,
      ?lookup_singleton_ne, ?lookup_empty, ?Hpk, ?Hipns by done;
    try done.
  all: try (rewrite lookup_insert_eq; reflexivity).
  all: destruct (g !! k); reflexivity.
Qed.

Lemma applyFallbacks_changed (h : Host) (c : config) :
  validatorChanged c = true -> applyFallbacks h c = Returns None c.
Proof. intros Hc. unfold applyFallbacks. rewrite Hc. reflexivity. Qed.

Lemma applyFallbacks_fill (h : Host) (c : config) (g : gmap string record.Validator) :
  validatorChanged c = false ->
  validator c = record.NamespacedValidator (Some g) ->
  applyFallbacks h c =
    Returns None
      (set_validator
         (record.NamespacedValidator
            (Some (g ∪ {[ "pk" := record.PublicKeyValidator;
                          "ipns" := record.IpnsValidator (Peerstore h) ]}))) c).
Proof.
  intros Hc Hv. unfold applyFallbacks. rewrite Hc, Hv. simpl.
  rewrite <- (fill_defaults g record.PublicKeyValidator
                (record.IpnsValidator (Peerstore h))).
  simpl. destruct (g !! "pk") as [x|]; simpl.
  - destruct (g !! "ipns"); reflexivity.
  - destruct (<["pk" := record.PublicKeyValidator]> g !! "ipns"); reflexivity.
Qed.

Lemma applyFallbacks_error_iff (h : Host) (c : config) :
  (exists msg c', applyFallbacks h c = Returns (Some msg) c') <->
  validatorChanged c = false /\ isNamespaced (validator c) = false.
Proof.
  unfold applyFallbacks. split.
  - intros (msg & c' & Hr).
    destruct (validatorChanged c); simpl in Hr; [discriminate|].
    split; [reflexivity|].
    destruct (validator c) as [| | |nsval|]; try reflexivity.
    exfalso. destruct nsval as [g|]; simpl in Hr; [|discriminate].
    destruct (g !! "pk"); simpl in Hr.
    + destruct (g !! "ipns"); discriminate.
    + destruct (<["pk" := record.PublicKeyValidator]> g !! "ipns"); discriminate.
  - intros [Hc Hv]. rewrite Hc. simpl.
    destruct (validator c); try discriminate; eauto.
Qed.

(** *** The options *)

Lemma option_of_keeps (k : Call) (c c' : config) (err : error) (f : Field) :
  option_of k c = Returns err c' -> f ∉ assigned k -> same_field f c c'.
Proof.
  intros Hr Hf.
  destruct k; simpl in Hr;
    try (injection Hr as <- <-;
         destruct f; try reflexivity; exfalso; apply Hf; simpl; set_solver).
  unfold NamespacedValidator in Hr.
  destruct (validator c) as [| | |[g|]|]; simpl in Hr; try discriminate;
    injection Hr as <- <-;
    destruct f; try reflexivity; exfalso; apply Hf; simpl; set_solver.
Qed.

(** A call that returns no error has stored what it was built with. *)
Lemma option_of_stores (k : Call) (c c' : config) :
  option_of k c = Returns None c' -> stored k c c'.
Proof.
  intros Hr.
  destruct k; simpl in Hr;
    try (injection Hr as <-; simpl; try split; reflexivity).
  unfold NamespacedValidator in Hr.
  destruct (validator c) as [| | |[g|]|] eqn:Hv; simpl in Hr; try discriminate.
  injection Hr as <-. exists g. split; [exact Hv|reflexivity].
Qed.

Lemma option_of_error_iff (k : Call) (c : config) :
  (exists msg c', option_of k c = Returns (Some msg) c') <->
  (exists ns v, k = call_NamespacedValidator ns v) /\
  isNamespaced (validator c) = false.
Proof.
  split.
  - intros (msg & c' & Hr).
    destruct k; simpl in Hr; try discriminate.
    split; [eauto|].
    unfold NamespacedValidator in Hr.
    destruct (validator c) as [| | |[g|]|]; simpl in Hr; try discriminate; reflexivity.
  - intros [(ns & v & ->) Hv]. simpl. unfold NamespacedValidator.
    destruct (validator c); try discriminate; eauto.
Qed.

Lemma option_of_total (k : Call) (c : config) :
  (forall ns v, k ≠ call_NamespacedValidator ns v) ->
  exists c', option_of k c = Returns None c'.
Proof.
  intros Hk. destruct k; simpl; try (eexists; reflexivity).
  exfalso. eapply Hk. reflexivity.
Qed.

(** [apply] on a list of option calls keeps every field none of them
    assigns. *)
Lemma apply_from_keeps (f : Field) (ks : list Call) :
  forall (i : nat) (c c' : config) (err : error),
    apply_from i (map option_of ks) c = Returns err c' ->
    Forall (fun k => f ∉ assigned k) ks ->
    same_field f c c'.
Proof.
  assert (Hrefl : forall c0, same_field f c0 c0) by (intros c0; destruct f; reflexivity).
  assert (Htrans : forall c0 c1 c2,
             same_field f c0 c1 -> same_field f c1 c2 -> same_field f c0 c2).
  { intros c0 c1 c2. destruct f; simpl; congruence. }
  induction ks as [|k ks IH]; intros i c c' err Hr Hall; simpl in Hr.
  - injection Hr as _ <-. apply Hrefl.
  - apply Forall_cons in Hall as [Hk Hall].
    destruct (option_of k c) as [[msg|] c1|] eqn:Hk1; [| |discriminate].
    + injection Hr as _ <-. eapply option_of_keeps; eauto.
    + eapply Htrans; [eapply option_of_keeps; eauto|].
      eapply IH; eauto.
Qed.

Lemma append_empty_inv (p e : string) : p +:+ e = p -> e = "".
Proof.
  induction p as [|a p IH]; simpl; [done|].
  intros Heq. injection Heq as Heq. auto.
Qed.


Lemma append_empty_r (p : string) : p +:+ "" = p.
Proof.
  induction p as [|a p IH]; [done|].
  change (String a (p +:+ "") = String a p). by rewrite IH.
Qed.

Lemma ln_2_pos : (0 < ln 2)%R.
Proof. rewrite <- ln_1. apply ln_increasing; lra. Qed.

Lemma Log2_inj (x y : R) : (0 < x)%R -> (0 < y)%R -> Log2 x = Log2 y -> x = y.
Proof.
  intros Hx Hy Heq. unfold Log2 in Heq.
  apply Rmult_eq_reg_r in Heq.
  - apply ln_inv; assumption.
  - apply Rinv_neq_0_compat. pose proof ln_2_pos. lra.
Qed.

Lemma apply_cons (opt : Option) (opts : list Option) (c : config) :
  apply (opt :: opts) c =
    match opt c with
    | Returns None c' => apply_from 1 opts c'
    | Returns (Some err) c' =>
        Returns (Some ("dht option " +:+ pretty 0%nat +:+ " failed: " +:+ err)) c'
    | Panics => Panics
    end.
Proof. reflexivity. Qed.

(** [defaults] never fails and sets both latency coefficients. *)
Lemma defaults_returns (c0 : config) :
  exists c, defaults c0 = Returns None c /\
    avgRoundTripPerStep (routingTable c) = 4%R /\
    avgBitsImprovedPerStep (routingTable c) = (1.3327 + Log2 (IZR defaultBucketSize))%R.
Proof. eexists. split; [reflexivity|]. split; reflexivity. Qed.

(** [defaults] turns auto-refresh on; only [DisableAutoRefresh] assigns to
    the field afterwards. *)
Lemma defaults_autoRefresh (c0 : config) :
  autoRefresh (routingTable (config_of (defaults c0))) = true.
Proof. reflexivity. Qed.

(** ** The claims on [dht_options.go] *)

(** C1.  [validate] returns no error for every config whose protocol prefix
    is not the reserved default.  For a config with the reserved prefix it
    returns no error if and only if the bucket size is the default bucket
    size (20), providers and values are both enabled, and the validator is
    a namespaced validator holding exactly the two namespaces ["pk"], bound
    to the public-key validator, and ["ipns"], bound to the naming-record
    validator; every violation comes back as an error. *)
Theorem validate_reserved_namespace (c : config) :
  (protocolPrefix c ≠ DefaultPrefix -> validate c = None) /\
  (protocolPrefix c = DefaultPrefix -> (validate c = None <-> reserved_ok c)) /\
  (protocolPrefix c = DefaultPrefix -> ~ reserved_ok c ->
   exists msg, validate c = Some msg).
Proof.
  split; [|split].
  - intros Hp. unfold validate. rewrite bool_decide_eq_true_2 by exact Hp.
    reflexivity.
  - intros Hp. split.
    + apply validate_reserved_inv. exact Hp.
    + apply validate_reserved_ok. exact Hp.
  - intros Hp Hbad. destruct (validate c) as [msg|] eqn:Hv; [eauto|].
    exfalso. apply Hbad. apply validate_reserved_inv; assumption.
Qed.

(** C2, amended.  [applyFallbacks] stores the default ["pk"] and ["ipns"]
    validators only when the validator is not marked as replaced
    ([validatorChanged] is false), and only under the namespaces that are
    not yet present.  When the validator was replaced by an option,
    [applyFallbacks] changes nothing and returns no error, whatever the
    validator is.  It returns an error exactly when the validator is not
    marked as replaced and is not a namespaced validator. *)
Theorem applyFallbacks_unless_replaced (h : Host) (c : config) :
  (validatorChanged c = true -> applyFallbacks h c = Returns None c) /\
  (forall g : gmap string record.Validator,
      validatorChanged c = false ->
      validator c = record.NamespacedValidator (Some g) ->
      applyFallbacks h c =
        Returns None
          (set_validator
             (record.NamespacedValidator
                (Some (g ∪ {[ "pk" := record.PublicKeyValidator;
                              "ipns" := record.IpnsValidator (Peerstore h) ]}))) c)) /\
  ((exists msg c', applyFallbacks h c = Returns (Some msg) c') <->
   validatorChanged c = false /\ isNamespaced (validator c) = false).
Proof.
  split; [|split].
  - apply applyFallbacks_changed.
  - intros g. apply applyFallbacks_fill.
  - apply applyFallbacks_error_iff.
Qed.

(** C7, amended.  Every exported option other than [Validator] assigns to
    exactly one field of the config, storing there the value it was built
    with, and leaves all others as they were; [Validator] assigns to two,
    storing its argument in [validator] and [true] in [validatorChanged].
    No option returns an error except [NamespacedValidator], which returns
    one exactly when the current validator is not a namespaced validator
    (and stores the new entry when it is one with an allocated map). *)
Theorem option_assigns_fields (k : Call) (c : config) :
  ((exists msg c', option_of k c = Returns (Some msg) c') <->
   (exists ns v, k = call_NamespacedValidator ns v) /\
   isNamespaced (validator c) = false) /\
  ((forall ns v, k ≠ call_NamespacedValidator ns v) ->
   exists c', option_of k c = Returns None c') /\
  (forall err c' f,
      option_of k c = Returns err c' -> f ∉ assigned k -> same_field f c c') /\
  (forall c', option_of k c = Returns None c' -> stored k c c') /\
  (forall msg c', option_of k c = Returns (Some msg) c' -> c' = c) /\
  ((exists f, assigned k = [f]) \/
   (exists v, k = call_Validator v) /\
   assigned k = [f_validator; f_validatorChanged]) /\
  (forall ns v (g : gmap string record.Validator),
      k = call_NamespacedValidator ns v ->
      validator c = record.NamespacedValidator (Some g) ->
      option_of k c =
        Returns None (set_validator (record.NamespacedValidator (Some (<[ns := v]> g))) c)).
Proof.
  split; [|split; [|split; [|split; [|split; [|split]]]]].
  - apply option_of_error_iff.
  - apply option_of_total.
  - intros err c' f. apply option_of_keeps.
  - intros c'. apply option_of_stores.
  - intros msg c' Hr. destruct k; simpl in Hr; try discriminate.
    unfold NamespacedValidator in Hr.
    destruct (validator c) as [| | |[g|]|]; simpl in Hr; try discriminate;
      injection Hr as _ <-; reflexivity.
  - destruct k; simpl; eauto.
  - intros ns v g -> Hv. simpl. unfold NamespacedValidator. rewrite Hv. reflexivity.
Qed.

(** C9, amended.  In the constructed default configuration
    [avgRoundTripPerStep] is 4 and [avgBitsImprovedPerStep] is
    [1.3327 + log2 20], 20 being the fixed default bucket size: whatever
    bucket size [k] is configured, and whatever other options are applied, a
    config built from the defaults with no explicit coefficient option keeps
    these two values. *)
Theorem defaults_latency_coefficients (c0 : config) :
  (forall k : Z,
      exists c, apply [defaults; BucketSize k] c0 = Returns None c /\
        bucketSize c = k /\
        avgRoundTripPerStep (routingTable c) = 4%R /\
        avgBitsImprovedPerStep (routingTable c) = (1.3327 + Log2 20)%R) /\
  (forall (ks : list Call) (err : error) (c : config),
      Forall (fun k => (f_avgBitsImprovedPerStep ∉ assigned k) /\
                       (f_avgRoundTripPerStep ∉ assigned k)) ks ->
      apply (defaults :: map option_of ks) c0 = Returns err c ->
      avgRoundTripPerStep (routingTable c) = 4%R /\
      avgBitsImprovedPerStep (routingTable c) = (1.3327 + Log2 20)%R).
Proof.
  split.
  - intros k. eexists. split; [reflexivity|]. repeat split.
  - intros ks err c Hall Hr.
    destruct (defaults_returns c0) as (c1 & Hd & Hround & Hbits).
    rewrite apply_cons, Hd in Hr.
    assert (Hb : same_field f_avgBitsImprovedPerStep c1 c).
    { eapply apply_from_keeps; [exact Hr|].
      eapply Forall_impl; [exact Hall|]. intros k [Hk _]. exact Hk. }
    assert (Ht : same_field f_avgRoundTripPerStep c1 c).
    { eapply apply_from_keeps; [exact Hr|].
      eapply Forall_impl; [exact Hall|]. intros k [_ Hk]. exact Hk. }
    simpl in Hb, Ht. rewrite <- Hb, <- Ht. split; assumption.
Qed.

(** C10.  [ProtocolExtension] appends to the current protocol prefix while
    [ProtocolPrefix] replaces it: extension then prefix yields the prefix
    alone, prefix then extension yields the prefix followed by the
    extension, two extensions are both appended in order, and the two
    orders of a prefix and an extension agree only for the empty
    extension. *)
Theorem prefix_extension_order (p e e1 e2 : string) (c : config) :
  apply [ProtocolExtension e; ProtocolPrefix p] c
    = Returns None (set_protocolPrefix p c) /\
  apply [ProtocolPrefix p; ProtocolExtension e] c
    = Returns None (set_protocolPrefix (p +:+ e) c) /\
  apply [ProtocolExtension e1; ProtocolExtension e2] c
    = Returns None (set_protocolPrefix ((protocolPrefix c +:+ e1) +:+ e2) c) /\
  (apply [ProtocolExtension e; ProtocolPrefix p] c
     = apply [ProtocolPrefix p; ProtocolExtension e] c <-> e = "").
Proof.
  split; [reflexivity|]. split; [reflexivity|]. split; [reflexivity|].
  change (Returns None (set_protocolPrefix p c)
            = Returns None (set_protocolPrefix (p +:+ e) c) <-> e = "").
  split.
  - intros Heq. injection Heq as Heq. symmetry in Heq.
    eapply append_empty_inv. exact Heq.
  - intros ->. rewrite append_empty_r. reflexivity.
Qed.

End WithImports.

(** ** The claims at concrete configs *)

Section AtSample.
#[local] Existing Instance Sample.imports.

Lemma validate_reserved_namespace_witness :
  validate Sample.ready_config = None.
Proof.
  apply (proj1 (proj2 (validate_reserved_namespace Sample.ready_config))).
  - reflexivity.
  - repeat split. exists 7%nat. reflexivity.
Defined.

(** A config whose validator was replaced by a validator that is not
    namespaced passes [applyFallbacks] without an error. *)
Lemma applyFallbacks_replaced_counterexample :
  validatorChanged Sample.replaced_config = true /\
  isNamespaced (validator Sample.replaced_config) = false /\
  applyFallbacks Sample.host Sample.replaced_config
    = Returns None Sample.replaced_config /\
  ~ (exists msg c',
        applyFallbacks Sample.host Sample.replaced_config
          = Returns (Some msg) c').
Proof.
  split; [reflexivity|]. split; [reflexivity|].
  assert (Hr : applyFallbacks Sample.host Sample.replaced_config
               = Returns None Sample.replaced_config)
    by (apply applyFallbacks_changed; reflexivity).
  split; [exact Hr|].
  intros (msg & c' & Hbad). rewrite Hr in Hbad. discriminate.
Qed.

Lemma applyFallbacks_unless_replaced_witness :
  applyFallbacks Sample.host Sample.replaced_config
    = Returns None Sample.replaced_config /\
  applyFallbacks Sample.host Sample.default_config
    = Returns None Sample.ready_config.
Proof.
  split.
  - apply (proj1 (applyFallbacks_unless_replaced Sample.host Sample.replaced_config)).
    reflexivity.
  - rewrite (proj1 (proj2 (applyFallbacks_unless_replaced Sample.host Sample.default_config))
               ∅ eq_refl eq_refl).
    reflexivity.
Defined.

(** [Validator] changes two fields of the default config. *)
Lemma option_one_field_counterexample :
  option_of (call_Validator record.PublicKeyValidator) Sample.default_config
    = Returns None Sample.replaced_config /\
  ~ same_field f_validator Sample.default_config Sample.replaced_config /\
  ~ same_field f_validatorChanged Sample.default_config Sample.replaced_config /\
  ~ (exists f, forall g,
        g ≠ f -> same_field g Sample.default_config Sample.replaced_config).
Proof.
  assert (Hv : ~ same_field f_validator Sample.default_config Sample.replaced_config)
    by (simpl; discriminate).
  assert (Hc : ~ same_field f_validatorChanged Sample.default_config
                 Sample.replaced_config)
    by (simpl; discriminate).
  split; [reflexivity|]. split; [exact Hv|]. split; [exact Hc|].
  intros (f & Hf).
  destruct f;
    first [ apply Hv; apply Hf; discriminate | apply Hc; apply Hf; discriminate ].
Qed.

Lemma option_assigns_fields_witness :
  same_field f_bucketSize Sample.default_config Sample.replaced_config /\
  stored (call_Validator record.PublicKeyValidator)
    Sample.default_config Sample.replaced_config.
Proof.
  pose proof (option_assigns_fields
                (call_Validator record.PublicKeyValidator) Sample.default_config)
    as (_ & _ & Hkeeps & Hstores & _).
  split.
  - apply (Hkeeps None Sample.replaced_config f_bucketSize).
    + reflexivity.
    + simpl. not_among.
  - apply Hstores. reflexivity.
Defined.

(** With bucket size 8 the default coefficient is not [1.3327 + log2 8]. *)
Lemma defaults_coefficient_counterexample :
  exists c,
    apply [defaults; BucketSize 8] zero = Returns None c /\
    bucketSize c = 8 /\
    avgBitsImprovedPerStep (routingTable c) ≠ (1.3327 + Log2 (IZR (bucketSize c)))%R.
Proof.
  eexists. split; [reflexivity|]. split; [reflexivity|].
  simpl. intros Heq. apply Rplus_eq_reg_l in Heq.
  unfold defaultBucketSize in Heq. apply Log2_inj in Heq; lra.
Qed.

Lemma defaults_latency_coefficients_witness :
  avgRoundTripPerStep (routingTable Sample.replaced_config) = 4%R /\
  avgBitsImprovedPerStep (routingTable Sample.replaced_config) = (1.3327 + Log2 20)%R.
Proof.
  apply (proj2 (defaults_latency_coefficients zero)
           [call_Validator record.PublicKeyValidator] None Sample.replaced_config).
  - repeat constructor; simpl; not_among.
  - reflexivity.
Defined.

End AtSample.
End OptionsSpec.

(** * Properties of notif.go *)

Module NotifSpec.
Import Notif.

Section WithCollaborators.
Context `{Collaborators}.

(** ** The channel *)

Lemma try_send_cap {A} (ch : chan A) (x : A) :
  chan_cap (try_send ch x).1 = chan_cap ch.
Proof. unfold try_send. destruct (_ <? _)%nat; reflexivity. Qed.

Lemma try_send_ok {A} (ch : chan A) (x : A) :
  chan_ok ch -> chan_ok (try_send ch x).1.
Proof.
  unfold chan_ok, try_send. intros Hok.
  destruct (length (chan_buf ch) <? chan_cap ch)%nat eqn:Hlt; simpl; [|exact Hok].
  apply Nat.ltb_lt in Hlt. rewrite length_app. simpl. lia.
Qed.

(** A send into a full channel is dropped. *)
Lemma try_send_full {A} (ch : chan A) (x : A) :
  (chan_cap ch <= length (chan_buf ch))%nat -> try_send ch x = (ch, false).
Proof.
  unfold try_send. intros Hfull.
  destruct (length (chan_buf ch) <? chan_cap ch)%nat eqn:Hlt; [|reflexivity].
  apply Nat.ltb_lt in Hlt. lia.
Qed.

(** A send into a channel with room is buffered behind what is there. *)
Lemma try_send_room {A} (ch : chan A) (x : A) :
  (length (chan_buf ch) < chan_cap ch)%nat ->
  try_send ch x = ({| chan_cap := chan_cap ch; chan_buf := chan_buf ch ++ [x] |}, true).
Proof.
  unfold try_send. intros Hroom.
  apply Nat.ltb_lt in Hroom. rewrite Hroom. reflexivity.
Qed.

(** ** Traces *)

Lemma sends_snoc (tr : list Event) (e : Event) :
  sends (tr ++ [e]) = (sends tr + (if is_send e then 1 else 0))%nat.
Proof.
  unfold sends. rewrite List.filter_app, length_app. simpl.
  destruct (is_send e); reflexivity.
Qed.

Lemma updates_snoc (tr : list Event) (e : Event) :
  updates (tr ++ [e]) =
  updates tr ++ match e with EvUpdate p => [p] | _ => [] end.
Proof. unfold updates. rewrite omap_app. destruct e; reflexivity. Qed.

(** ** The refresh signal *)

Lemma signal_refresh_chan (dht : IpfsDHT) :
  triggerRtRefresh (signal_refresh dht) = (try_send (triggerRtRefresh dht) None).1.
Proof. unfold signal_refresh. destruct (try_send _ _). reflexivity. Qed.

Lemma signal_refresh_trace (dht : IpfsDHT) :
  trace (signal_refresh dht)
  = trace dht ++ [EvSend (try_send (triggerRtRefresh dht) None).2].
Proof. unfold signal_refresh. destruct (try_send _ _). reflexivity. Qed.

Lemma signal_refresh_sends (dht : IpfsDHT) :
  sends (trace (signal_refresh dht)) = S (sends (trace dht)).
Proof. rewrite signal_refresh_trace, sends_snoc. simpl. lia. Qed.

Lemma signal_refresh_updates (dht : IpfsDHT) :
  updates (trace (signal_refresh dht)) = updates (trace dht).
Proof. rewrite signal_refresh_trace, updates_snoc. apply app_nil_r. Qed.

Lemma signal_refresh_frame (dht : IpfsDHT) :
  routingTable (signal_refresh dht) = routingTable dht /\
  peerstore (signal_refresh dht) = peerstore dht /\
  protocolStrs (signal_refresh dht) = protocolStrs dht /\
  connManager (signal_refresh dht) = connManager dht /\
  strmap (signal_refresh dht) = strmap dht /\
  netPeers (signal_refresh dht) = netPeers dht.
Proof. unfold signal_refresh. destruct (try_send _ _). repeat split. Qed.

Lemma signal_refresh_n_sends (n : nat) (dht : IpfsDHT) :
  sends (trace (signal_refresh_n n dht)) = (sends (trace dht) + n)%nat.
Proof.
  unfold signal_refresh_n. induction n as [|n IH]; simpl; [lia|].
  rewrite signal_refresh_sends, IH. lia.
Qed.

Lemma signal_refresh_n_cap (n : nat) (dht : IpfsDHT) :
  chan_cap (triggerRtRefresh (signal_refresh_n n dht))
  = chan_cap (triggerRtRefresh dht).
Proof.
  unfold signal_refresh_n. induction n as [|n IH]; simpl; [reflexivity|].
  rewrite signal_refresh_chan, try_send_cap. exact IH.
Qed.

Lemma signal_refresh_n_ok (n : nat) (dht : IpfsDHT) :
  chan_ok (triggerRtRefresh dht) ->
  chan_ok (triggerRtRefresh (signal_refresh_n n dht)).
Proof.
  intros Hok. unfold signal_refresh_n. induction n as [|n IH]; simpl; [exact Hok|].
  rewrite signal_refresh_chan. apply try_send_ok. exact IH.
Qed.

(** Once the channel is full, further signals leave it as it is. *)
Lemma signal_refresh_n_full (n : nat) (dht : IpfsDHT) :
  (chan_cap (triggerRtRefresh dht) <= length (chan_buf (triggerRtRefresh dht)))%nat ->
  triggerRtRefresh (signal_refresh_n n dht) = triggerRtRefresh dht.
Proof.
  intros Hfull. unfold signal_refresh_n. induction n as [|n IH]; simpl; [reflexivity|].
  rewrite signal_refresh_chan, IH, try_send_full by exact Hfull. reflexivity.
Qed.

(** ** The block under the lifecycle lock *)

Lemma update_if_connected_eq (p : PeerID) (dht : IpfsDHT) :
  connected dht p = true ->
  update_if_connected p dht =
    if bool_decide (Size (routingTable dht) <= minRTRefreshThreshold) && autoRefresh dht
    then signal_refresh (dht_Update p dht)
    else dht_Update p dht.
Proof. intros Hc. unfold update_if_connected. rewrite Hc. reflexivity. Qed.

Lemma update_if_connected_chan (p : PeerID) (dht : IpfsDHT) :
  triggerRtRefresh (update_if_connected p dht) = triggerRtRefresh dht \/
  triggerRtRefresh (update_if_connected p dht)
    = (try_send (triggerRtRefresh dht) None).1.
Proof.
  unfold update_if_connected.
  destruct (connected dht p); [|left; reflexivity].
  destruct (_ && _); [right|left; reflexivity].
  rewrite signal_refresh_chan. reflexivity.
Qed.

Lemma update_if_connected_sends (p : PeerID) (dht : IpfsDHT) :
  connected dht p = true ->
  sends (trace (update_if_connected p dht)) =
    (sends (trace dht) +
     if bool_decide (Size (routingTable dht) <= minRTRefreshThreshold)%Z
        && autoRefresh dht
     then 1 else 0)%nat.
Proof.
  intros Hc. rewrite update_if_connected_eq by exact Hc.
  destruct (_ && _).
  - rewrite signal_refresh_sends. unfold dht_Update. simpl.
    rewrite sends_snoc. simpl. lia.
  - unfold dht_Update. simpl. rewrite sends_snoc. simpl. lia.
Qed.

Lemma update_if_connected_updates (p : PeerID) (dht : IpfsDHT) :
  connected dht p = true ->
  updates (trace (update_if_connected p dht)) = updates (trace dht) ++ [p] /\
  routingTable (update_if_connected p dht) = Update (routingTable dht) p.
Proof.
  intros Hc. rewrite update_if_connected_eq by exact Hc.
  destruct (_ && _).
  - rewrite signal_refresh_updates.
    destruct (signal_refresh_frame (dht_Update p dht)) as (-> & _).
    unfold dht_Update. simpl. rewrite updates_snoc. split; reflexivity.
  - unfold dht_Update. simpl. rewrite updates_snoc. split; reflexivity.
Qed.

(** ** The re-admission loop of [Disconnected] *)

Lemma readmit_frame (dht : IpfsDHT) (q : PeerID) :
  peerstore (readmit dht q) = peerstore dht /\
  protocolStrs (readmit dht q) = protocolStrs dht /\
  triggerRtRefresh (readmit dht q) = triggerRtRefresh dht /\
  strmap (readmit dht q) = strmap dht /\
  sends (trace (readmit dht q)) = sends (trace dht).
Proof.
  unfold readmit. destruct (supports dht q); [|repeat split].
  unfold dht_Update. simpl. rewrite sends_snoc. simpl.
  repeat split. lia.
Qed.

Lemma readmit_loop_frame (qs : list PeerID) :
  forall dht : IpfsDHT,
    peerstore (foldl readmit dht qs) = peerstore dht /\
    protocolStrs (foldl readmit dht qs) = protocolStrs dht /\
    triggerRtRefresh (foldl readmit dht qs) = triggerRtRefresh dht /\
    strmap (foldl readmit dht qs) = strmap dht /\
    sends (trace (foldl readmit dht qs)) = sends (trace dht).
Proof.
  induction qs as [|q qs IH]; intros dht; simpl; [repeat split|].
  destruct (IH (readmit dht q)) as (-> & -> & -> & -> & ->).
  apply readmit_frame.
Qed.

Lemma supports_frame (d d' : IpfsDHT) (q : PeerID) :
  peerstore d' = peerstore d -> protocolStrs d' = protocolStrs d ->
  supports d' q = supports d q.
Proof. intros Hps Hpr. unfold supports. rewrite Hps, Hpr. reflexivity. Qed.

(** The loop calls [dht.Update] for the connected peers whose protocol
    support the peerstore has, in the order of [Peers()], and for no other. *)
Lemma readmit_loop_updates (qs : list PeerID) :
  forall dht : IpfsDHT,
    updates (trace (foldl readmit dht qs))
    = updates (trace dht) ++ List.filter (supports dht) qs.
Proof.
  induction qs as [|q qs IH]; intros dht; simpl; [by rewrite app_nil_r|].
  rewrite IH.
  assert (Hs : forall x, supports (readmit dht q) x = supports dht x).
  { intros x. destruct (readmit_frame dht q) as (Hps & Hpr & _).
    apply supports_frame; assumption. }
  rewrite (List.filter_ext _ _ Hs).
  unfold readmit at 1. destruct (supports dht q); [|reflexivity].
  unfold dht_Update. simpl. rewrite updates_snoc, <- app_assoc. reflexivity.
Qed.

(** ** [Disconnected] *)

(** The state [Disconnected] reaches once the peer is removed and
    unprotected. *)
Lemma Disconnected_chan (v : Conn) (dht : IpfsDHT) :
  triggerRtRefresh (Disconnected v dht) = triggerRtRefresh dht /\
  sends (trace (Disconnected v dht)) = sends (trace dht).
Proof.
  unfold Disconnected.
  destruct (closing dht); [split; reflexivity|].
  destruct (connected dht (RemotePeer v)); [split; reflexivity|].
  set (d1 := cm_Unprotect (RemotePeer v) "routingTable" (rt_Remove (RemotePeer v) dht)).
  assert (H1 : triggerRtRefresh d1 = triggerRtRefresh dht /\
               sends (trace d1) = sends (trace dht)).
  { subst d1. unfold cm_Unprotect, rt_Remove. simpl.
    rewrite !sends_snoc. simpl. split; [reflexivity|lia]. }
  set (d2 := if bool_decide (Size (routingTable d1) < minRTRefreshThreshold)
             then foldl readmit d1 (netPeers d1) else d1).
  assert (H2 : triggerRtRefresh d2 = triggerRtRefresh dht /\
               sends (trace d2) = sends (trace dht)).
  { subst d2. destruct (bool_decide _); [|exact H1].
    destruct (readmit_loop_frame (netPeers d1) d1) as (_ & _ & -> & _ & ->).
    exact H1. }
  destruct (strmap d2 !! RemotePeer v); [|exact H2].
  simpl. rewrite sends_snoc. simpl. destruct H2 as [-> ->]. split; [reflexivity|lia].
Qed.

(** ** Every handler keeps the channel within its capacity *)

Lemma testConnection_chan (v : Conn) (dht : IpfsDHT) :
  triggerRtRefresh (testConnection v dht) = triggerRtRefresh dht \/
  triggerRtRefresh (testConnection v dht)
    = (try_send (triggerRtRefresh dht) None).1.
Proof.
  unfold testConnection.
  destruct (NewStream v) as [s|]; [|left; reflexivity].
  simpl. destruct (SelectOneOf _ s) as [selected|]; [|left; reflexivity].
  simpl.
  destruct (update_if_connected_chan (RemotePeer v)
              (ps_AddProtocols (RemotePeer v) selected (emit (EvNewStream v) dht)))
    as [Heq|Heq]; rewrite Heq; [left|right]; reflexivity.
Qed.

Lemma Connected_chan (v : Conn) (dht : IpfsDHT) :
  triggerRtRefresh (Connected v dht) = triggerRtRefresh dht \/
  triggerRtRefresh (Connected v dht)
    = (try_send (triggerRtRefresh dht) None).1.
Proof.
  unfold Connected.
  destruct (closing dht); [left; reflexivity|].
  destruct (supports dht (RemotePeer v)); [|left; reflexivity].
  apply update_if_connected_chan.
Qed.

Lemma handle_chan (dht : IpfsDHT) (n : Notification) :
  triggerRtRefresh (handle dht n) = triggerRtRefresh dht \/
  triggerRtRefresh (handle dht n) = (try_send (triggerRtRefresh dht) None).1.
Proof.
  destruct n as [v|v|v]; simpl.
  - apply Connected_chan.
  - left. apply Disconnected_chan.
  - apply testConnection_chan.
Qed.

Lemma run_chan (ns : list Notification) :
  forall dht : IpfsDHT,
    chan_ok (triggerRtRefresh dht) ->
    chan_ok (triggerRtRefresh (run ns dht)) /\
    chan_cap (triggerRtRefresh (run ns dht)) = chan_cap (triggerRtRefresh dht).
Proof.
  unfold run. induction ns as [|n ns IH]; intros dht Hok; simpl; [by split|].
  destruct (handle_chan dht n) as [Heq|Heq].
  - destruct (IH (handle dht n)) as [Hok' Hcap']; [by rewrite Heq|].
    split; [exact Hok'|]. by rewrite Hcap', Heq.
  - destruct (IH (handle dht n)) as [Hok' Hcap'].
    { rewrite Heq. by apply try_send_ok. }
    split; [exact Hok'|]. by rewrite Hcap', Heq, try_send_cap.
Qed.

Lemma Disconnected_readmits (v : Conn) (dht : IpfsDHT) :
  closing dht = false ->
  connected dht (RemotePeer v) = false ->
  Size (Remove (routingTable dht) (RemotePeer v)) < minRTRefreshThreshold ->
  updates (trace (Disconnected v dht))
  = updates (trace dht) ++ List.filter (supports dht) (netPeers dht).
Proof.
  intros Hcl Hc Hsize. unfold Disconnected. rewrite Hcl, Hc.
  set (d1 := cm_Unprotect (RemotePeer v) "routingTable" (rt_Remove (RemotePeer v) dht)).
  change (routingTable d1) with (Remove (routingTable dht) (RemotePeer v)).
  rewrite bool_decide_eq_true_2 by exact Hsize.
  assert (Hu : updates (trace (foldl readmit d1 (netPeers d1)))
               = updates (trace dht) ++ List.filter (supports dht) (netPeers dht)).
  { rewrite readmit_loop_updates. subst d1. unfold cm_Unprotect, rt_Remove. simpl.
    rewrite !updates_snoc, !app_nil_r. reflexivity. }
  destruct (strmap (foldl readmit d1 (netPeers d1)) !! RemotePeer v); [|exact Hu].
  simpl. rewrite updates_snoc, app_nil_r. exact Hu.
Qed.

Lemma testConnection_sends (v : Conn) (dht : IpfsDHT) (s : Stream) (selected : string) :
  NewStream v = Some s ->
  SelectOneOf (protocolStrs dht) s = Some selected ->
  connected dht (RemotePeer v) = true ->
  sends (trace (testConnection v dht)) =
    (sends (trace dht) +
     if bool_decide (Size (routingTable dht) <= minRTRefreshThreshold)%Z
        && autoRefresh dht
     then 1 else 0)%nat.
Proof.
  intros Hs Hsel Hc. unfold testConnection. rewrite Hs. simpl. rewrite Hsel.
  simpl. rewrite sends_snoc. simpl.
  rewrite update_if_connected_sends by exact Hc.
  unfold ps_AddProtocols. simpl. rewrite !sends_snoc. simpl. lia.
Qed.

(** ** The claims on [notif.go] *)

(** C3.  On a Connected event for a peer whose protocol support the
    peerstore already has and who is still connected under the lifecycle
    lock, the handler takes [needsRefresh] to be (routing-table size before
    the update <= the minimum refresh threshold), calls [Update] for the
    peer, and attempts the refresh signal only when [needsRefresh] holds and
    auto-refresh is on.  With 19 peers in the table, a threshold of 20 and
    auto-refresh on, [Update] is called and one refresh signal is attempted,
    which is buffered when the channel has room. *)
Theorem Connected_cached_support (v : Conn) (dht : IpfsDHT) :
  closing dht = false ->
  supports dht (RemotePeer v) = true ->
  connected dht (RemotePeer v) = true ->
  let p := RemotePeer v in
  let needsRefresh :=
    bool_decide (Size (routingTable dht) <= minRTRefreshThreshold) in
  Connected v dht =
    (if needsRefresh && autoRefresh dht
     then signal_refresh (dht_Update p dht)
     else dht_Update p dht) /\
  routingTable (Connected v dht) = Update (routingTable dht) p /\
  updates (trace (Connected v dht)) = updates (trace dht) ++ [p] /\
  sends (trace (Connected v dht)) =
    (sends (trace dht) + if needsRefresh && autoRefresh dht then 1 else 0)%nat /\
  (Size (routingTable dht) = 19 -> minRTRefreshThreshold = 20 ->
   autoRefresh dht = true ->
   sends (trace (Connected v dht)) = S (sends (trace dht)) /\
   ((length (chan_buf (triggerRtRefresh dht)) < chan_cap (triggerRtRefresh dht))%nat ->
    trace (Connected v dht) = trace dht ++ [EvUpdate p; EvSend true] /\
    chan_buf (triggerRtRefresh (Connected v dht))
      = chan_buf (triggerRtRefresh dht) ++ [None])).
Proof.
  intros Hcl Hsup Hc p needsRefresh.
  assert (Heq : Connected v dht = update_if_connected p dht).
  { unfold Connected. rewrite Hcl, Hsup. reflexivity. }
  rewrite Heq.
  split; [apply update_if_connected_eq; exact Hc|].
  destruct (update_if_connected_updates p dht Hc) as [Hu Hrt].
  split; [exact Hrt|]. split; [exact Hu|].
  split; [apply update_if_connected_sends; exact Hc|].
  intros Hsize Hthr Hauto.
  assert (Hneeds : needsRefresh = true).
  { subst needsRefresh. apply bool_decide_eq_true_2. lia. }
  rewrite update_if_connected_sends by exact Hc.
  fold needsRefresh. rewrite Hneeds, Hauto. simpl.
  split; [lia|]. intros Hroom.
  rewrite update_if_connected_eq by exact Hc.
  fold needsRefresh. rewrite Hneeds, Hauto. simpl.
  rewrite signal_refresh_trace, signal_refresh_chan.
  change (triggerRtRefresh (dht_Update p dht)) with (triggerRtRefresh dht).
  rewrite try_send_room by exact Hroom. simpl.
  rewrite <- app_assoc. split; reflexivity.
Qed.

(** C4.  On a Disconnected event, if the peer is connected again once the
    lifecycle lock is held, the handler does nothing: the whole state (the
    routing table, the connection manager, the stream map, the trace of
    calls) is left as it was. *)
Theorem Disconnected_stale (v : Conn) (dht : IpfsDHT) :
  connected dht (RemotePeer v) = true ->
  Disconnected v dht = dht.
Proof.
  intros Hc. unfold Disconnected.
  destruct (closing dht); [reflexivity|].
  rewrite Hc. reflexivity.
Qed.

(** C5.  With a refresh-request channel of capacity 1 that nothing drains,
    any number [n] of refresh-signal attempts leaves at most one signal
    buffered: all [n] attempts return, a first attempt on the empty channel
    is buffered, and every attempt made while a signal is pending is
    dropped.  The same bound holds after any sequence of handler runs. *)
Theorem refresh_signal_coalesces (n : nat) (dht : IpfsDHT) :
  chan_cap (triggerRtRefresh dht) = chan_cap (@make_triggerRtRefresh (option nat)) ->
  chan_ok (triggerRtRefresh dht) ->
  (length (chan_buf (triggerRtRefresh (signal_refresh_n n dht))) <= 1)%nat /\
  sends (trace (signal_refresh_n n dht)) = (sends (trace dht) + n)%nat /\
  (chan_buf (triggerRtRefresh dht) ≠ [] ->
   triggerRtRefresh (signal_refresh_n n dht) = triggerRtRefresh dht) /\
  (chan_buf (triggerRtRefresh dht) = [] ->
   chan_buf (triggerRtRefresh (signal_refresh_n (S n) dht)) = [None]) /\
  (forall ns : list Notification,
      (length (chan_buf (triggerRtRefresh (run ns dht))) <= 1)%nat).
Proof.
  intros Hcap Hok. change (chan_cap (triggerRtRefresh dht) = 1%nat) in Hcap.
  split; [|split; [|split; [|split]]].
  - pose proof (signal_refresh_n_ok n dht Hok) as Hn.
    unfold chan_ok in Hn. rewrite signal_refresh_n_cap, Hcap in Hn. exact Hn.
  - apply signal_refresh_n_sends.
  - intros Hne. apply signal_refresh_n_full. rewrite Hcap.
    destruct (chan_buf (triggerRtRefresh dht)); [done|simpl; lia].
  - intros Hempty.
    assert (H1 : chan_buf (triggerRtRefresh (signal_refresh dht)) = [None]).
    { rewrite signal_refresh_chan, try_send_room by (rewrite Hempty, Hcap; simpl; lia).
      simpl. rewrite Hempty. reflexivity. }
    assert (Hn : signal_refresh_n (S n) dht = signal_refresh_n n (signal_refresh dht)).
    { unfold signal_refresh_n. rewrite Nat.iter_succ_r. reflexivity. }
    rewrite Hn, signal_refresh_n_full; [exact H1|].
    rewrite H1, signal_refresh_chan, try_send_cap, Hcap. simpl. lia.
  - intros ns. destruct (run_chan ns dht Hok) as [Hok' Hcap'].
    unfold chan_ok in Hok'. rewrite Hcap', Hcap in Hok'. exact Hok'.
Qed.

(** C6.  When opening the stream fails, and when protocol negotiation
    fails, the probe returns having called neither [Update] nor
    [AddProtocols]: the routing table, the peerstore, the refresh channel,
    the connection manager and the stream map are as before, and the only
    calls made are [NewStream] and, for a stream that was opened, its
    [FullClose].  The probe has no error result, and no step of it can
    panic. *)
Theorem testConnection_failure_swallowed (v : Conn) (dht : IpfsDHT) :
  NewStream v = None \/
  (exists s, NewStream v = Some s /\ SelectOneOf (protocolStrs dht) s = None) ->
  routingTable (testConnection v dht) = routingTable dht /\
  peerstore (testConnection v dht) = peerstore dht /\
  triggerRtRefresh (testConnection v dht) = triggerRtRefresh dht /\
  connManager (testConnection v dht) = connManager dht /\
  strmap (testConnection v dht) = strmap dht /\
  updates (trace (testConnection v dht)) = updates (trace dht) /\
  sends (trace (testConnection v dht)) = sends (trace dht) /\
  trace (testConnection v dht) =
    trace dht ++ EvNewStream v ::
      match NewStream v with
      | Some s => [EvFullClose s]
      | None => []
      end.
Proof.
  intros [Hs|(s & Hs & Hsel)]; unfold testConnection; rewrite Hs; simpl.
  - rewrite updates_snoc, sends_snoc, app_nil_r. simpl.
    repeat split. lia.
  - rewrite Hsel. simpl.
    rewrite !updates_snoc, !sends_snoc, !app_nil_r, <- app_assoc. simpl.
    repeat split. lia.
Qed.

(** C8, amended.  A refresh signal is attempted after an admission by the
    Connected handler or by the probe, when the routing-table size before
    the update was at most the minimum and auto-refresh is on.  The
    Disconnected handler never attempts one: after removing the peer, when
    the table is below the minimum, it calls [Update] for the connected
    peers whose protocol support the peerstore has, and leaves the refresh
    channel alone. *)
Theorem refresh_signal_on_admission_only (v : Conn) (dht : IpfsDHT) :
  (closing dht = false -> supports dht (RemotePeer v) = true ->
   connected dht (RemotePeer v) = true ->
   sends (trace (Connected v dht)) =
     (sends (trace dht) +
      if bool_decide (Size (routingTable dht) <= minRTRefreshThreshold)%Z
         && autoRefresh dht
      then 1 else 0)%nat) /\
  (forall s selected,
      NewStream v = Some s -> SelectOneOf (protocolStrs dht) s = Some selected ->
      connected dht (RemotePeer v) = true ->
      sends (trace (testConnection v dht)) =
        (sends (trace dht) +
         if bool_decide (Size (routingTable dht) <= minRTRefreshThreshold)%Z
            && autoRefresh dht
         then 1 else 0)%nat) /\
  sends (trace (Disconnected v dht)) = sends (trace dht) /\
  triggerRtRefresh (Disconnected v dht) = triggerRtRefresh dht /\
  (closing dht = false -> connected dht (RemotePeer v) = false ->
   Size (Remove (routingTable dht) (RemotePeer v)) < minRTRefreshThreshold ->
   updates (trace (Disconnected v dht))
   = updates (trace dht) ++ List.filter (supports dht) (netPeers dht)).
Proof.
  split; [|split; [|split; [|split]]].
  - intros Hcl Hsup Hc. unfold Connected. rewrite Hcl, Hsup.
    apply update_if_connected_sends. exact Hc.
  - intros s selected. apply testConnection_sends.
  - apply Disconnected_chan.
  - apply Disconnected_chan.
  - apply Disconnected_readmits.
Qed.

End WithCollaborators.

(** ** The claims at concrete states *)

Section AtSample.
#[local] Existing Instance Sample.net.

Lemma Connected_cached_support_witness :
  sends (trace (Connected Sample.conn_peer Sample.dht19)) = 1%nat /\
  trace (Connected Sample.conn_peer Sample.dht19) = [EvUpdate "QmPeer"; EvSend true] /\
  chan_buf (triggerRtRefresh (Connected Sample.conn_peer Sample.dht19)) = [None].
Proof.
  destruct (Connected_cached_support Sample.conn_peer Sample.dht19
              eq_refl eq_refl eq_refl) as (_ & _ & _ & _ & Hscenario).
  destruct (Hscenario eq_refl eq_refl eq_refl) as [Hsends Hroom].
  split; [exact Hsends|]. apply Hroom. simpl. lia.
Defined.

Lemma Disconnected_stale_witness :
  Disconnected Sample.conn_peer Sample.dht19 = Sample.dht19.
Proof. apply (Disconnected_stale Sample.conn_peer Sample.dht19). reflexivity. Defined.

Lemma refresh_signal_coalesces_witness :
  (length (chan_buf (triggerRtRefresh (signal_refresh_n 5 Sample.dht19))) <= 1)%nat.
Proof.
  apply (refresh_signal_coalesces 5 Sample.dht19).
  - reflexivity.
  - unfold chan_ok. simpl. lia.
Defined.

Lemma testConnection_failure_swallowed_witness :
  routingTable (testConnection Sample.conn_broken Sample.dht19)
    = routingTable Sample.dht19 /\
  routingTable (testConnection Sample.conn_foreign Sample.dht19)
    = routingTable Sample.dht19.
Proof.
  split.
  - apply (testConnection_failure_swallowed Sample.conn_broken Sample.dht19).
    left. reflexivity.
  - apply (testConnection_failure_swallowed Sample.conn_foreign Sample.dht19).
    right. exists (Some "/other/1.0.0"). split; reflexivity.
Defined.

(** Removing ["QmGone"] leaves one peer in the table, below the threshold of
    20, with auto-refresh on and the refresh channel empty: the handler
    re-admits two peers and attempts no refresh signal. *)
Lemma Disconnected_refresh_counterexample :
  closing Sample.dht2 = false /\
  autoRefresh Sample.dht2 = true /\
  chan_buf (triggerRtRefresh Sample.dht2) = [] /\
  Size (Remove (routingTable Sample.dht2) (RemotePeer Sample.conn_gone))
    < minRTRefreshThreshold /\
  trace (Disconnected Sample.conn_gone Sample.dht2)
    = [EvRemove "QmGone"; EvUnprotect "QmGone" "routingTable";
       EvUpdate "QmStay"; EvUpdate "QmNew"; EvGo (go_invalidate Sample.sender)] /\
  sends (trace (Disconnected Sample.conn_gone Sample.dht2)) = 0%nat /\
  chan_buf (triggerRtRefresh (Disconnected Sample.conn_gone Sample.dht2)) = [].
Proof. repeat split. Qed.

Lemma refresh_signal_on_admission_only_witness :
  sends (trace (Connected Sample.conn_peer Sample.dht19)) = 1%nat /\
  updates (trace (Disconnected Sample.conn_gone Sample.dht2)) = ["QmStay"; "QmNew"].
Proof.
  pose proof (refresh_signal_on_admission_only Sample.conn_peer Sample.dht19)
    as (Hconn & _).
  pose proof (refresh_signal_on_admission_only Sample.conn_gone Sample.dht2)
    as (_ & _ & _ & _ & Hdisc).
  split.
  - apply (Hconn eq_refl eq_refl eq_refl).
  - apply (Hdisc eq_refl eq_refl). reflexivity.
Defined.

End AtSample.
End NotifSpec.

(** * Further properties of dht_options.go *)

Module OptionsExtra.
Import Options OptionsSpec.

Section WithImports.
Context `{Imports}.

(** ** [apply] *)

(** Whether a run of options succeeds, and the config it yields, does not
    depend on the index the count starts from. *)
Lemma apply_from_success (opts : list Option) :
  forall (i j : nat) (c c' : config),
    apply_from i opts c = Returns None c' -> apply_from j opts c = Returns None c'.
Proof.
  induction opts as [|opt opts IH]; intros i j c c' Hr; simpl in *; [exact Hr|].
  destruct (opt c) as [[err|] c1|]; try discriminate.
  eapply IH. exact Hr.
Qed.

Lemma apply_from_app (pre rest : list Option) :
  forall (i : nat) (c c1 : config),
    apply_from i pre c = Returns None c1 ->
    apply_from i (pre ++ rest) c = apply_from (i + length pre) rest c1.
Proof.
  induction pre as [|opt pre IH]; intros i c c1 Hr; simpl in *.
  - injection Hr as <-. rewrite Nat.add_0_r. reflexivity.
  - destruct (opt c) as [[err|] c2|]; try discriminate.
    rewrite (IH (S i) c2 c1 Hr). f_equal. lia.
Qed.

(** A run that succeeds has succeeded on each of its parts. *)
Lemma apply_from_app_inv (pre rest : list Option) :
  forall (i : nat) (c c' : config),
    apply_from i (pre ++ rest) c = Returns None c' ->
    exists c1,
      apply_from i pre c = Returns None c1 /\
      apply_from (i + length pre) rest c1 = Returns None c'.
Proof.
  induction pre as [|opt pre IH]; intros i c c' Hr; simpl in *.
  - exists c. rewrite Nat.add_0_r. split; [reflexivity|exact Hr].
  - destruct (opt c) as [[err|] c2|]; try discriminate.
    destruct (IH (S i) c2 c' Hr) as (c1 & Hpre & Hrest).
    exists c1. split; [exact Hpre|].
    replace (i + S (length pre))%nat with (S i + length pre)%nat by lia.
    exact Hrest.
Qed.

(** X1.  [apply] stops at the first option that fails: it returns that
    option's error, prefixed with the option's position in the list, the
    config is as the failing option left it, and no later option runs.  An
    option that panics ends [apply] in the same way. *)
Theorem apply_first_failure (pre post : list Option) (opt : Option) (c c1 : config) :
  apply pre c = Returns None c1 ->
  (forall err c2,
      opt c1 = Returns (Some err) c2 ->
      apply (pre ++ opt :: post) c =
        Returns (Some ("dht option " +:+ pretty (length pre) +:+ " failed: " +:+ err)) c2) /\
  (opt c1 = Panics -> apply (pre ++ opt :: post) c = Panics).
Proof.
  intros Hpre. unfold apply in *.
  rewrite (apply_from_app pre (opt :: post) 0 c c1 Hpre). simpl.
  split.
  - intros err c2 ->. reflexivity.
  - intros ->. reflexivity.
Qed.

(** X2.  Applying a list of options in one go is applying its parts one
    after the other: when the first part succeeds, the whole succeeds
    exactly when the second part succeeds on the config the first part
    built, and yields the same config. *)
Theorem apply_app (xs ys : list Option) (c c1 c2 : config) :
  apply xs c = Returns None c1 ->
  (apply (xs ++ ys) c = Returns None c2 <-> apply ys c1 = Returns None c2).
Proof.
  intros Hxs. unfold apply in *.
  rewrite (apply_from_app xs ys 0 c c1 Hxs).
  split; apply apply_from_success.
Qed.

(** ** The construction sequence: options, fallbacks, validation *)

(** The config [defaults] builds has an empty namespaced validator, which the
    fallbacks fill with exactly the two default validators. *)
Lemma fallbacks_after (h : Host) (c : config) (g : gmap string record.Validator) :
  validatorChanged c = false ->
  validator c = record.NamespacedValidator (Some g) ->
  applyFallbacks h c =
    Returns None
      (set_validator (record.NamespacedValidator (Some (g ∪ fallback_validators h))) c).
Proof. apply applyFallbacks_fill. Qed.

(** X3.  With no option besides [defaults], construction succeeds for every
    host: [defaults] returns no error, the fallbacks complete the
    validator, and the config passes [validate]. *)
Theorem defaults_validate (c0 : config) (h : Host) :
  validatorChanged c0 = false ->
  exists c c',
    apply [defaults] c0 = Returns None c /\
    applyFallbacks h c = Returns None c' /\
    validate c' = None.
Proof.
  intros Hc0. eexists _, _. split; [reflexivity|]. split.
  - apply fallbacks_after; [exact Hc0|reflexivity].
  - apply validate_reserved_ok; [reflexivity|].
    repeat split. exists (Peerstore h). simpl.
    unfold fallback_validators. rewrite (left_id_L ∅ (∪)). reflexivity.
Qed.

(** X4.  A bucket size other than 20 is refused under the default prefix
    ["/ipfs"], with the bucket-size error, and accepted under any other
    prefix. *)
Theorem bucket_size_needs_own_prefix (k : Z) (c0 : config) (h : Host) :
  validatorChanged c0 = false ->
  k ≠ defaultBucketSize ->
  (exists c c',
      apply [defaults; BucketSize k] c0 = Returns None c /\
      applyFallbacks h c = Returns None c' /\
      validate c' = Some "protocol prefix /ipfs must use bucket size 20") /\
  (forall p : string,
      p ≠ DefaultPrefix ->
      exists c c',
        apply [defaults; ProtocolPrefix p; BucketSize k] c0 = Returns None c /\
        applyFallbacks h c = Returns None c' /\
        validate c' = None).
Proof.
  intros Hc0 Hk. split.
  - eexists _, _. split; [reflexivity|]. split.
    + apply fallbacks_after; [exact Hc0|reflexivity].
    + unfold validate. simpl.
      rewrite bool_decide_eq_true_2 by exact Hk. reflexivity.
  - intros p Hp. eexists _, _. split; [reflexivity|]. split.
    + apply fallbacks_after; [exact Hc0|reflexivity].
    + unfold validate. simpl.
      rewrite bool_decide_eq_true_2 by exact Hp. reflexivity.
Qed.

(** X5.  Disabling provider records or value records is refused under the
    default prefix, each with its own error, and accepted under any other
    prefix. *)
Theorem storage_needs_own_prefix (c0 : config) (h : Host) :
  validatorChanged c0 = false ->
  (exists c c',
      apply [defaults; DisableProviders] c0 = Returns None c /\
      applyFallbacks h c = Returns None c' /\
      validate c' = Some "protocol prefix /ipfs must have providers enabled") /\
  (exists c c',
      apply [defaults; DisableValues] c0 = Returns None c /\
      applyFallbacks h c = Returns None c' /\
      validate c' = Some "protocol prefix /ipfs must have values enabled") /\
  (forall p : string,
      p ≠ DefaultPrefix ->
      exists c c',
        apply [defaults; ProtocolPrefix p; DisableProviders; DisableValues] c0
          = Returns None c /\
        applyFallbacks h c = Returns None c' /\
        validate c' = None).
Proof.
  intros Hc0. split; [|split].
  - eexists _, _. split; [reflexivity|]. split.
    + apply fallbacks_after; [exact Hc0|reflexivity].
    + reflexivity.
  - eexists _, _. split; [reflexivity|]. split.
    + apply fallbacks_after; [exact Hc0|reflexivity].
    + reflexivity.
  - intros p Hp. eexists _, _. split; [reflexivity|]. split.
    + apply fallbacks_after; [exact Hc0|reflexivity].
    + unfold validate. simpl.
      rewrite bool_decide_eq_true_2 by exact Hp. reflexivity.
Qed.

(** What [validate] reads in the config [defaults] builds. *)
Lemma defaults_facts (c0 : config) :
  exists cd,
    defaults c0 = Returns None cd /\
    validatorChanged cd = validatorChanged c0 /\
    validator cd = record.NamespacedValidator (Some ∅) /\
    protocolPrefix cd = DefaultPrefix /\
    bucketSize cd = defaultBucketSize /\
    enableProviders cd = true /\
    enableValues cd = true.
Proof. eexists. split; [reflexivity|]. repeat split. Qed.

Lemma NamespacedValidator_stores
    (ns : string) (v : record.Validator) (c : config) (g : gmap string record.Validator) :
  validator c = record.NamespacedValidator (Some g) ->
  NamespacedValidator ns v c =
    Returns None (set_validator (record.NamespacedValidator (Some (<[ns := v]> g))) c).
Proof. intros Hv. unfold NamespacedValidator. rewrite Hv. reflexivity. Qed.

(** With the fields [validate] reads at their defaults and the validator
    map made of one stored entry and the fallbacks, [validate] accepts only
    a stored entry that repeats a default. *)
Lemma validate_after_namespaced
    (ns : string) (v : record.Validator) (h : Host) (c' : config) :
  protocolPrefix c' = DefaultPrefix ->
  bucketSize c' = defaultBucketSize ->
  enableProviders c' = true ->
  enableValues c' = true ->
  validator c'
    = record.NamespacedValidator (Some (<[ns := v]> ∅ ∪ fallback_validators h)) ->
  (validate c' = None <->
     (ns = "pk" /\ v = record.PublicKeyValidator) \/
     (ns = "ipns" /\ exists kb, v = record.IpnsValidator kb)).
Proof.
  intros Hp Hb Hpr Hva Hv'. split.
  - intros Hv. apply (validate_reserved_inv c' Hp) in Hv.
    destruct Hv as (_ & _ & _ & kb & Hg). rewrite Hv' in Hg.
    assert (Hab : <[ns := v]> ∅ ∪ fallback_validators h
                  = {[ "pk" := record.PublicKeyValidator;
                       "ipns" := record.IpnsValidator kb ]}).
    { apply (f_equal (fun x => match x with
                               | record.NamespacedValidator (Some m) => m
                               | _ => ∅
                               end)) in Hg.
      exact Hg. }
    assert (Hns : ({[ "pk" := record.PublicKeyValidator;
                     "ipns" := record.IpnsValidator kb ]}
                   : gmap string record.Validator) !! ns = Some v).
    { rewrite <- Hab. apply lookup_union_Some_l, lookup_insert_eq. }
    apply lookup_insert_Some in Hns as [[<- <-]|[_ Hns]]; [left; done|].
    apply lookup_singleton_Some in Hns as [<- <-]. right. eauto.
  - intros Hcase. apply (validate_reserved_ok c' Hp).
    split; [exact Hb|]. split; [exact Hpr|]. split; [exact Hva|].
    rewrite Hv'. unfold fallback_validators.
    destruct Hcase as [[-> ->]|[-> [kb ->]]].
    + exists (Peerstore h).
      apply (f_equal (fun m => record.NamespacedValidator (Some m))).
      apply map_eq. intros k. rewrite lookup_union.
      destruct (decide (k = "pk")) as [->|Hk1].
      * rewrite !lookup_insert_eq. reflexivity.
      * rewrite (lookup_insert_ne ∅) by done. rewrite lookup_empty.
        destruct (_ !! k); reflexivity.
    + exists kb.
      apply (f_equal (fun m => record.NamespacedValidator (Some m))).
      apply map_eq. intros k. rewrite lookup_union.
      destruct (decide (k = "ipns")) as [->|Hk1].
      * rewrite lookup_insert_eq, !lookup_insert_ne by discriminate.
        rewrite !lookup_singleton_eq. reflexivity.
      * rewrite (lookup_insert_ne ∅) by done. rewrite lookup_empty.
        destruct (decide (k = "pk")) as [->|Hk2].
        { rewrite !lookup_insert_eq. reflexivity. }
        rewrite !lookup_insert_ne, !lookup_singleton_ne by done. reflexivity.
Qed.

(** X6.  Under the default prefix, a [NamespacedValidator(ns, v)] added to
    the defaults passes validation only when it repeats a default: [ns] is
    ["pk"] and [v] a [record.PublicKeyValidator], or [ns] is ["ipns"] and [v]
    an [ipns.Validator].  Any other namespace, and any other validator under
    ["pk"] or ["ipns"], is stored by the option, kept by the fallbacks and
    refused by [validate]. *)
Theorem namespaced_validator_under_default_prefix
    (ns : string) (v : record.Validator) (c0 : config) (h : Host) :
  validatorChanged c0 = false ->
  exists c c' g,
    apply [defaults; NamespacedValidator ns v] c0 = Returns None c /\
    applyFallbacks h c = Returns None c' /\
    validator c' = record.NamespacedValidator (Some g) /\
    g !! ns = Some v /\
    (validate c' = None <->
     (ns = "pk" /\ v = record.PublicKeyValidator) \/
     (ns = "ipns" /\ exists kb, v = record.IpnsValidator kb)).
Proof.
  intros Hc0.
  destruct (defaults_facts c0) as (cd & Hd & Hvc & Hval & Hp & Hb & Hpr & Hva).
  set (c := set_validator (record.NamespacedValidator (Some (<[ns := v]> ∅))) cd).
  set (g := <[ns := v]> ∅ ∪ fallback_validators h).
  exists c, (set_validator (record.NamespacedValidator (Some g)) c), g.
  split.
  { rewrite apply_cons, Hd.
    change (apply_from 1 [NamespacedValidator ns v] cd)
      with (match NamespacedValidator ns v cd with
            | Returns None c' => Returns None c'
            | Returns (Some err) c' =>
                Returns (Some ("dht option " +:+ pretty 1%nat +:+ " failed: " +:+ err)) c'
            | Panics => Panics
            end).
    rewrite (NamespacedValidator_stores ns v cd ∅ Hval). reflexivity. }
  split.
  { apply fallbacks_after; [|reflexivity]. subst c. simpl. congruence. }
  split; [reflexivity|].
  split; [apply lookup_union_Some_l, lookup_insert_eq|].
  apply (validate_after_namespaced ns v h); subst c; simpl; done.
Qed.

(** [validate] reads five fields of the config and no other. *)
Lemma validate_ext (c c' : config) :
  (forall f, f ∈ validated_fields -> same_field f c c') -> validate c = validate c'.
Proof.
  intros Hsame. unfold validate.
  pose proof (Hsame f_protocolPrefix ltac:(unfold validated_fields; set_solver)) as H1.
  pose proof (Hsame f_bucketSize ltac:(unfold validated_fields; set_solver)) as H2.
  pose proof (Hsame f_enableProviders ltac:(unfold validated_fields; set_solver)) as H3.
  pose proof (Hsame f_enableValues ltac:(unfold validated_fields; set_solver)) as H4.
  pose proof (Hsame f_validator ltac:(unfold validated_fields; set_solver)) as H5.
  simpl in *. rewrite H1, H2, H3, H4, H5. reflexivity.
Qed.

(** X7.  An option that assigns to none of the fields [validate] reads never
    fails and never changes the verdict of [validate]: the values given to
    [Concurrency], [Resiliency], [ProtectedBuckets], the refresh periods,
    the latency coefficients and the like are not checked at all, zero and
    negative values included. *)
Theorem unvalidated_options (k : Call) (c : config) :
  (forall f, f ∈ validated_fields -> f ∉ assigned k) ->
  exists c', option_of k c = Returns None c' /\ validate c' = validate c.
Proof.
  intros Hk.
  destruct (option_of_total k c) as [c' Hr].
  { intros ns v ->. apply (Hk f_validator); [unfold validated_fields|simpl]; set_solver. }
  exists c'. split; [exact Hr|]. symmetry. apply validate_ext.
  intros f Hf. eapply option_of_keeps; [exact Hr|]. apply Hk. exact Hf.
Qed.

(** X8.  Every option except [ProtocolExtension] is idempotent: applied a
    second time to the config it built, it succeeds and changes nothing. *)
Theorem option_idempotent (k : Call) (c c' : config) :
  (forall ext, k ≠ call_ProtocolExtension ext) ->
  option_of k c = Returns None c' ->
  option_of k c' = Returns None c'.
Proof.
  intros Hk Hr.
  destruct k; simpl in Hr;
    try (injection Hr as <-; reflexivity).
  - unfold NamespacedValidator in Hr.
    destruct (validator c) as [| | |[g|]|] eqn:Hv; simpl in Hr; try discriminate.
    injection Hr as <-. cbn [option_of].
    rewrite (NamespacedValidator_stores ns v _ (<[ns := v]> g)) by reflexivity.
    rewrite insert_insert_eq. reflexivity.
  - exfalso. eapply Hk. reflexivity.
Qed.

(** X9.  Options that assign to different fields commute: when two of them
    succeed in one order they succeed in the other, with the same config. *)
Theorem options_commute (k1 k2 : Call) (c c' : config) :
  (forall f, f ∈ assigned k1 -> f ∉ assigned k2) ->
  apply [option_of k1; option_of k2] c = Returns None c' ->
  apply [option_of k2; option_of k1] c = Returns None c'.
Proof.
  intros Hd.
  destruct k1, k2;
    try (exfalso; eapply Hd; simpl; apply list_elem_of_here);
    unfold apply; simpl; unfold NamespacedValidator; simpl;
    try (intros Hr; injection Hr as <-; reflexivity);
    destruct (validator c) as [| | |[g|]|]; simpl;
    try discriminate;
    intros Hr; injection Hr as <-; reflexivity.
Qed.

(** The fallbacks for one host, then for another, add nothing to those for
    the first. *)
Lemma fallback_validators_absorb (g : gmap string record.Validator) (h h' : Host) :
  (g ∪ fallback_validators h) ∪ fallback_validators h' = g ∪ fallback_validators h.
Proof.
  apply map_eq. intros k.
  destruct ((g ∪ fallback_validators h) !! k) as [x|] eqn:Hk.
  - apply lookup_union_Some_l. exact Hk.
  - rewrite lookup_union_r by exact Hk.
    apply lookup_union_None in Hk as [_ Hk]. unfold fallback_validators in *.
    apply lookup_insert_None in Hk as [Hk ?].
    apply lookup_singleton_None in Hk.
    rewrite lookup_insert_ne, lookup_singleton_ne by done. reflexivity.
Qed.

(** X10.  [applyFallbacks] is idempotent: run again on the config it
    returned, for the same or for another host, it returns no error and
    leaves the config as it is (the ["ipns"] validator keeps the key book of
    the first host). *)
Theorem applyFallbacks_idempotent (h h' : Host) (c c' : config) :
  applyFallbacks h c = Returns None c' ->
  applyFallbacks h' c' = Returns None c'.
Proof.
  intros Hr.
  destruct (validatorChanged c) eqn:Hc.
  - rewrite applyFallbacks_changed in Hr by exact Hc. injection Hr as <-.
    apply applyFallbacks_changed. exact Hc.
  - destruct (validator c) as [| | |[g|]|] eqn:Hv;
      try (unfold applyFallbacks in Hr; rewrite Hc, Hv in Hr; simpl in Hr; discriminate).
    rewrite (fallbacks_after h c g Hc Hv) in Hr. injection Hr as <-.
    rewrite (fallbacks_after h' _ (g ∪ fallback_validators h)) by (simpl; done).
    rewrite fallback_validators_absorb. reflexivity.
Qed.

(** No option clears [validatorChanged]. *)
Lemma option_keeps_validatorChanged (k : Call) (c c' : config) (err : error) :
  option_of k c = Returns err c' ->
  validatorChanged c = true -> validatorChanged c' = true.
Proof.
  intros Hr Hc.
  destruct k;
    try (pose proof (option_of_keeps _ c c' err f_validatorChanged Hr
                       ltac:(simpl; not_among)) as Hs;
         simpl in Hs; congruence).
  simpl in Hr. injection Hr as <- <-. reflexivity.
Qed.

Lemma apply_from_keeps_validatorChanged (ks : list Call) :
  forall (i : nat) (c c' : config) (err : error),
    apply_from i (map option_of ks) c = Returns err c' ->
    validatorChanged c = true -> validatorChanged c' = true.
Proof.
  induction ks as [|k ks IH]; intros i c c' err Hr Hc; simpl in Hr.
  - injection Hr as _ <-. exact Hc.
  - destruct (option_of k c) as [[msg|] c1|] eqn:Hk; [| |discriminate].
    + injection Hr as _ <-. eapply option_keeps_validatorChanged; eauto.
    + eapply IH; [exact Hr|]. eapply option_keeps_validatorChanged; eauto.
Qed.

(** X11.  Once [Validator] has been applied, no later option brings the
    default validators back: whatever options come before and after it,
    [validatorChanged] is set in the config they build, and [applyFallbacks]
    leaves that config as it is. *)
Theorem Validator_disables_fallbacks
    (pre post : list Call) (v : record.Validator) (c c' : config) (h : Host) :
  apply (map option_of (pre ++ call_Validator v :: post)) c = Returns None c' ->
  validatorChanged c' = true /\ applyFallbacks h c' = Returns None c'.
Proof.
  intros Hr.
  assert (Hc' : validatorChanged c' = true).
  { unfold apply in Hr. rewrite map_app in Hr.
    destruct (apply_from_app_inv _ _ _ _ _ Hr) as (c1 & Hpre & Hrest).
    simpl in Hrest.
    eapply apply_from_keeps_validatorChanged; [exact Hrest|reflexivity]. }
  split; [exact Hc'|]. apply applyFallbacks_changed. exact Hc'.
Qed.

End WithImports.

(** ** At concrete configs *)

Section AtSample.
#[local] Existing Instance Sample.imports.

Lemma apply_first_failure_witness :
  apply [defaults; Validator record.PublicKeyValidator;
         NamespacedValidator "app" record.PublicKeyValidator; BucketSize 8] zero
  = Returns
      (Some "dht option 2 failed: can only add namespaced validators to a NamespacedValidator")
      Sample.replaced_config.
Proof.
  apply (proj1 (apply_first_failure
                  [defaults; Validator record.PublicKeyValidator] [BucketSize 8]
                  (NamespacedValidator "app" record.PublicKeyValidator)
                  zero Sample.replaced_config eq_refl)).
  reflexivity.
Defined.

Lemma apply_app_witness :
  apply [Validator record.PublicKeyValidator] Sample.default_config
  = Returns None Sample.replaced_config.
Proof.
  apply (proj1 (apply_app [defaults] [Validator record.PublicKeyValidator]
                  zero Sample.default_config Sample.replaced_config eq_refl)).
  reflexivity.
Defined.

Lemma defaults_validate_witness :
  exists c c',
    apply [defaults] zero = Returns None c /\
    applyFallbacks Sample.host c = Returns None c' /\
    validate c' = None.
Proof. exact (defaults_validate zero Sample.host eq_refl). Defined.

Lemma bucket_size_needs_own_prefix_witness :
  exists c c',
    apply [defaults; BucketSize 8] zero = Returns None c /\
    applyFallbacks Sample.host c = Returns None c' /\
    validate c' = Some "protocol prefix /ipfs must use bucket size 20".
Proof.
  apply (bucket_size_needs_own_prefix 8 zero Sample.host eq_refl).
  discriminate.
Defined.

Lemma storage_needs_own_prefix_witness :
  exists c c',
    apply [defaults; DisableProviders] zero = Returns None c /\
    applyFallbacks Sample.host c = Returns None c' /\
    validate c' = Some "protocol prefix /ipfs must have providers enabled".
Proof. exact (proj1 (storage_needs_own_prefix zero Sample.host eq_refl)). Defined.

Lemma namespaced_validator_under_default_prefix_witness :
  exists c c' g,
    apply [defaults; NamespacedValidator "app" record.PublicKeyValidator] zero
      = Returns None c /\
    applyFallbacks Sample.host c = Returns None c' /\
    validator c' = record.NamespacedValidator (Some g) /\
    g !! "app" = Some record.PublicKeyValidator /\
    (validate c' = None <->
     ("app" = "pk" /\ record.PublicKeyValidator = record.PublicKeyValidator) \/
     ("app" = "ipns" /\ exists kb, record.PublicKeyValidator = record.IpnsValidator kb)).
Proof.
  exact (namespaced_validator_under_default_prefix
           "app" record.PublicKeyValidator zero Sample.host eq_refl).
Defined.

Lemma unvalidated_options_witness :
  exists c',
    option_of (call_Concurrency (-5)) Sample.ready_config = Returns None c' /\
    validate c' = validate Sample.ready_config.
Proof.
  apply (unvalidated_options (call_Concurrency (-5)) Sample.ready_config).
  intros f Hf Hin. apply list_elem_of_singleton in Hin. subst f.
  revert Hf. unfold validated_fields. not_among.
Defined.

Lemma option_idempotent_witness :
  option_of (call_Validator record.PublicKeyValidator) Sample.replaced_config
  = Returns None Sample.replaced_config.
Proof.
  apply (option_idempotent (call_Validator record.PublicKeyValidator)
           Sample.default_config Sample.replaced_config).
  - discriminate.
  - reflexivity.
Defined.

Lemma options_commute_witness :
  apply [option_of (call_BucketSize 8);
         option_of (call_Validator record.PublicKeyValidator)] zero
  = Returns None Sample.small_bucket_config.
Proof.
  apply (options_commute (call_Validator record.PublicKeyValidator) (call_BucketSize 8)
           zero Sample.small_bucket_config).
  - intros f Hf. simpl in *. revert Hf.
    intros Hf Hin. apply list_elem_of_singleton in Hin. subst f.
    revert Hf. not_among.
  - reflexivity.
Defined.

Lemma applyFallbacks_idempotent_witness :
  applyFallbacks Sample.host' Sample.ready_config = Returns None Sample.ready_config.
Proof.
  apply (applyFallbacks_idempotent Sample.host Sample.host'
           Sample.default_config Sample.ready_config).
  reflexivity.
Defined.

Lemma Validator_disables_fallbacks_witness :
  validatorChanged Sample.small_bucket_config = true /\
  applyFallbacks Sample.host Sample.small_bucket_config
    = Returns None Sample.small_bucket_config.
Proof.
  apply (Validator_disables_fallbacks [] [call_BucketSize 8] record.PublicKeyValidator
           zero Sample.small_bucket_config Sample.host).
  reflexivity.
Defined.

End AtSample.
End OptionsExtra.

(** * Further properties of notif.go *)

Module NotifExtra.
Import Notif NotifSpec.

Section WithCollaborators.
Context `{Collaborators}.

Lemma spawned_snoc (tr : list Event) (e : Event) :
  spawned (tr ++ [e]) =
  spawned tr ++ match e with EvGo t => [t] | _ => [] end.
Proof. unfold spawned. rewrite omap_app. destruct e; reflexivity. Qed.

Lemma readmit_loop_spawned (qs : list PeerID) :
  forall dht : IpfsDHT,
    spawned (trace (foldl readmit dht qs)) = spawned (trace dht) /\
    autoRefresh (foldl readmit dht qs) = autoRefresh dht.
Proof.
  induction qs as [|q qs IH]; intros dht; simpl; [split; reflexivity|].
  destruct (IH (readmit dht q)) as [-> ->].
  unfold readmit. destruct (supports dht q); [|split; reflexivity].
  unfold dht_Update. simpl. rewrite spawned_snoc, app_nil_r. split; reflexivity.
Qed.

(** X12.  Once the process is closing, connect and disconnect notifications
    change nothing, however many arrive: no routing-table update or
    removal, no probe, no stream-map change. *)
Theorem closing_ignores_notifications (ns : list Notification) (dht : IpfsDHT) :
  closing dht = true ->
  Forall (fun n => from_network n = true) ns ->
  run ns dht = dht.
Proof.
  intros Hcl Hall. unfold run.
  induction Hall as [|n ns Hn Hall IH]; simpl; [reflexivity|].
  assert (Hstep : handle dht n = dht).
  { destruct n as [v|v|v]; simpl in *; [| |discriminate].
    - unfold Connected. rewrite Hcl. reflexivity.
    - unfold Disconnected. rewrite Hcl. reflexivity. }
  rewrite Hstep. exact IH.
Qed.

(** X13.  A Connected notification for a peer with recorded protocol
    support who is no longer connected once the lifecycle lock is held is
    dropped: the peer is not admitted, no probe is started, nothing
    changes. *)
Theorem Connected_stale (v : Conn) (dht : IpfsDHT) :
  supports dht (RemotePeer v) = true ->
  connected dht (RemotePeer v) = false ->
  Connected v dht = dht.
Proof.
  intros Hsup Hc. unfold Connected.
  destruct (closing dht); [reflexivity|].
  rewrite Hsup. unfold update_if_connected. rewrite Hc. reflexivity.
Qed.

(** X14.  The probe closes every stream it opens: whenever [NewStream]
    succeeds, the last call of [testConnection] is [FullClose] on that
    stream, whether negotiation fails, the peer has gone, or the peer is
    admitted. *)
Theorem testConnection_closes_stream (v : Conn) (dht : IpfsDHT) (s : Stream) :
  NewStream v = Some s ->
  last (trace (testConnection v dht)) = Some (EvFullClose s).
Proof.
  intros Hs. unfold testConnection. rewrite Hs.
  destruct (SelectOneOf _ s); simpl; apply last_snoc.
Qed.

(** X15.  After a successful negotiation the probe records the selected
    protocol for the peer whether or not the peer is still connected; it
    calls [Update] for the peer exactly when the peer is still connected
    under the lifecycle lock, and otherwise leaves the routing table and
    the refresh channel alone. *)
Theorem testConnection_negotiated
    (v : Conn) (dht : IpfsDHT) (s : Stream) (selected : string) :
  NewStream v = Some s ->
  SelectOneOf (protocolStrs dht) s = Some selected ->
  peerstore (testConnection v dht)
    = AddProtocols (peerstore dht) (RemotePeer v) [selected] /\
  (connected dht (RemotePeer v) = false ->
   routingTable (testConnection v dht) = routingTable dht /\
   triggerRtRefresh (testConnection v dht) = triggerRtRefresh dht /\
   trace (testConnection v dht) =
     trace dht ++ [EvNewStream v; EvAddProtocols (RemotePeer v) [selected];
                   EvFullClose s]) /\
  (connected dht (RemotePeer v) = true ->
   routingTable (testConnection v dht) = Update (routingTable dht) (RemotePeer v) /\
   updates (trace (testConnection v dht))
     = updates (trace dht) ++ [RemotePeer v]).
Proof.
  intros Hs Hsel. unfold testConnection. rewrite Hs. simpl. rewrite Hsel. simpl.
  set (d1 := ps_AddProtocols (RemotePeer v) selected (emit (EvNewStream v) dht)).
  assert (Hps : peerstore (update_if_connected (RemotePeer v) d1)
                = AddProtocols (peerstore dht) (RemotePeer v) [selected]).
  { unfold update_if_connected. destruct (connected d1 _); [|reflexivity].
    destruct (_ && _); [|reflexivity].
    destruct (signal_refresh_frame (dht_Update (RemotePeer v) d1)) as (_ & -> & _).
    reflexivity. }
  split; [exact Hps|]. split.
  - intros Hc. unfold update_if_connected.
    change (connected d1 (RemotePeer v)) with (connected dht (RemotePeer v)).
    rewrite Hc. subst d1. unfold ps_AddProtocols. simpl.
    rewrite <- !app_assoc. repeat split.
  - intros Hc.
    destruct (update_if_connected_updates (RemotePeer v) d1 Hc) as [Hu Hrt].
    rewrite updates_snoc, app_nil_r, Hu, Hrt. subst d1.
    unfold ps_AddProtocols. simpl. rewrite !updates_snoc, !app_nil_r.
    split; reflexivity.
Qed.

(** The re-admission loop only adds calls to the trace. *)
Lemma readmit_loop_trace (qs : list PeerID) :
  forall dht : IpfsDHT,
    exists rest, trace (foldl readmit dht qs) = trace dht ++ rest.
Proof.
  induction qs as [|q qs IH]; intros dht; simpl.
  - exists []. by rewrite app_nil_r.
  - destruct (IH (readmit dht q)) as [rest ->].
    unfold readmit. destruct (supports dht q).
    + unfold dht_Update. simpl. rewrite <- app_assoc. eauto.
    + eauto.
Qed.

(** X16.  A Disconnected notification for a peer that is really gone
    always calls [Remove] and then [Unprotect] under the tag
    ["routingTable"] for the peer, removes the peer's entry from the stream
    map and leaves the other entries alone, starts one invalidation task
    exactly when there was an entry, and never touches the peerstore or
    starts a probe. *)
Theorem Disconnected_cleanup (v : Conn) (dht : IpfsDHT) :
  closing dht = false ->
  connected dht (RemotePeer v) = false ->
  strmap (Disconnected v dht) = delete (RemotePeer v) (strmap dht) /\
  (exists rest,
      trace (Disconnected v dht) =
        trace dht ++
        EvRemove (RemotePeer v) :: EvUnprotect (RemotePeer v) "routingTable" :: rest) /\
  peerstore (Disconnected v dht) = peerstore dht /\
  spawned (trace (Disconnected v dht)) =
    spawned (trace dht) ++
    match strmap dht !! RemotePeer v with
    | Some ms => [go_invalidate ms]
    | None => []
    end.
Proof.
  intros Hcl Hc. unfold Disconnected. rewrite Hcl, Hc.
  set (d1 := cm_Unprotect (RemotePeer v) "routingTable" (rt_Remove (RemotePeer v) dht)).
  set (d2 := if bool_decide (Size (routingTable d1) < minRTRefreshThreshold)
             then foldl readmit d1 (netPeers d1) else d1).
  assert (H1 : trace d1 = trace dht ++ [EvRemove (RemotePeer v);
                                        EvUnprotect (RemotePeer v) "routingTable"]).
  { subst d1. unfold cm_Unprotect, rt_Remove. simpl. by rewrite <- app_assoc. }
  assert (H2 : strmap d2 = strmap dht /\
               (exists rest,
                   trace d2 =
                     trace dht ++
                     EvRemove (RemotePeer v)
                       :: EvUnprotect (RemotePeer v) "routingTable" :: rest) /\
               peerstore d2 = peerstore dht /\
               spawned (trace d2) = spawned (trace dht)).
  { assert (Hsp1 : spawned (trace d1) = spawned (trace dht)).
    { rewrite H1. unfold spawned. rewrite omap_app. simpl. by rewrite app_nil_r. }
    subst d2. destruct (bool_decide _).
    - destruct (readmit_loop_frame (netPeers d1) d1) as (-> & _ & _ & -> & _).
      destruct (readmit_loop_spawned (netPeers d1) d1) as [-> _].
      destruct (readmit_loop_trace (netPeers d1) d1) as [rest ->].
      repeat split; [|exact Hsp1].
      exists rest. rewrite H1, <- app_assoc. reflexivity.
    - repeat split; [|exact Hsp1]. exists []. exact H1. }
  destruct H2 as (Hsm & [rest Htr] & Hps & Hsp). rewrite Hsm.
  destruct (strmap dht !! RemotePeer v) as [ms|] eqn:Hms; simpl.
  - rewrite spawned_snoc, Hsp, Htr. repeat split; [|exact Hps].
    exists (rest ++ [EvGo (go_invalidate ms)]).
    rewrite <- app_assoc. reflexivity.
  - rewrite Hsm, Hsp, app_nil_r, delete_id by exact Hms.
    repeat split; [|exact Hps]. exists rest. exact Htr.
Qed.

(** X17.  When the routing table still holds at least
    [minRTRefreshThreshold] peers after the removal, the Disconnected
    handler only removes: [Update] is called for no peer, and the table is
    the one [Remove] returned. *)
Theorem Disconnected_above_threshold (v : Conn) (dht : IpfsDHT) :
  closing dht = false ->
  connected dht (RemotePeer v) = false ->
  minRTRefreshThreshold <= Size (Remove (routingTable dht) (RemotePeer v)) ->
  routingTable (Disconnected v dht) = Remove (routingTable dht) (RemotePeer v) /\
  updates (trace (Disconnected v dht)) = updates (trace dht).
Proof.
  intros Hcl Hc Hsize. unfold Disconnected. rewrite Hcl, Hc.
  set (d1 := cm_Unprotect (RemotePeer v) "routingTable" (rt_Remove (RemotePeer v) dht)).
  change (routingTable d1) with (Remove (routingTable dht) (RemotePeer v)).
  rewrite bool_decide_eq_false_2 by lia.
  assert (H1 : updates (trace d1) = updates (trace dht)).
  { subst d1. unfold cm_Unprotect, rt_Remove. simpl.
    rewrite !updates_snoc, !app_nil_r. reflexivity. }
  destruct (strmap d1 !! RemotePeer v); simpl.
  - rewrite updates_snoc, app_nil_r. split; [reflexivity|exact H1].
  - split; [reflexivity|exact H1].
Qed.

(** With auto-refresh off a handler sends nothing and leaves the flag off. *)
Lemma update_if_connected_quiet (p : PeerID) (dht : IpfsDHT) :
  autoRefresh dht = false ->
  autoRefresh (update_if_connected p dht) = false /\
  triggerRtRefresh (update_if_connected p dht) = triggerRtRefresh dht /\
  sends (trace (update_if_connected p dht)) = sends (trace dht).
Proof.
  intros Ha. unfold update_if_connected.
  destruct (connected dht p); [|by repeat split].
  change (autoRefresh (dht_Update p dht)) with (autoRefresh dht).
  rewrite Ha, andb_false_r. unfold dht_Update. simpl.
  rewrite sends_snoc. simpl. repeat split; [exact Ha|lia].
Qed.

Lemma handle_quiet (dht : IpfsDHT) (n : Notification) :
  autoRefresh dht = false ->
  autoRefresh (handle dht n) = false /\
  triggerRtRefresh (handle dht n) = triggerRtRefresh dht /\
  sends (trace (handle dht n)) = sends (trace dht).
Proof.
  intros Ha. destruct n as [v|v|v]; simpl.
  - unfold Connected. destruct (closing dht); [by repeat split|].
    destruct (supports dht (RemotePeer v)).
    + apply update_if_connected_quiet. exact Ha.
    + simpl. rewrite sends_snoc. simpl. repeat split; [exact Ha|lia].
  - destruct (Disconnected_chan v dht) as [-> ->]. split; [|split; reflexivity].
    unfold Disconnected. destruct (closing dht); [exact Ha|].
    destruct (connected dht (RemotePeer v)); [exact Ha|].
    set (d1 := cm_Unprotect _ _ _).
    assert (H2 : autoRefresh (if bool_decide (Size (routingTable d1) < minRTRefreshThreshold)
                              then foldl readmit d1 (netPeers d1) else d1) = false).
    { destruct (bool_decide _); [|exact Ha].
      destruct (readmit_loop_spawned (netPeers d1) d1) as [_ ->]. exact Ha. }
    destruct (strmap _ !! _); exact H2.
  - unfold testConnection.
    destruct (NewStream v) as [s|]; simpl;
      [|rewrite sends_snoc; simpl; repeat split; [exact Ha|lia]].
    destruct (SelectOneOf _ s) as [selected|]; simpl;
      [|rewrite !sends_snoc; simpl; repeat split; [exact Ha|lia]].
    destruct (update_if_connected_quiet (RemotePeer v)
                (ps_AddProtocols (RemotePeer v) selected (emit (EvNewStream v) dht)) Ha)
      as (Ha' & -> & Hs').
    rewrite sends_snoc, Hs'. unfold ps_AddProtocols. simpl.
    rewrite !sends_snoc. simpl. repeat split; [exact Ha'|lia].
Qed.

(** X18.  With auto-refresh disabled no refresh is ever requested: over
    any sequence of notifications and probes no send on the refresh channel
    is attempted, and the channel stays as it was. *)
Theorem no_refresh_without_autoRefresh (ns : list Notification) (dht : IpfsDHT) :
  autoRefresh dht = false ->
  sends (trace (run ns dht)) = sends (trace dht) /\
  triggerRtRefresh (run ns dht) = triggerRtRefresh dht.
Proof.
  unfold run. revert dht.
  induction ns as [|n ns IH]; intros dht Ha; simpl; [split; reflexivity|].
  destruct (handle_quiet dht n Ha) as (Ha' & Hch & Hs).
  destruct (IH (handle dht n) Ha') as [-> ->]. split; assumption.
Qed.

(** X19.  A Connected notification either admits or probes, never both:
    it calls [Update], for the remote peer only, exactly when the node is
    not closing, the peerstore reports support and the peer is still
    connected; it starts a probe exactly when the node is not closing and
    the peerstore reports no support.  It never touches the peerstore or
    the stream map, and the connection manager changes only through the
    [Update] call of an admission. *)
Theorem Connected_admits_or_probes (v : Conn) (dht : IpfsDHT) :
  updates (trace (Connected v dht)) =
    updates (trace dht) ++
    (if negb (closing dht) && supports dht (RemotePeer v)
        && connected dht (RemotePeer v)
     then [RemotePeer v] else []) /\
  spawned (trace (Connected v dht)) =
    spawned (trace dht) ++
    (if negb (closing dht) && negb (supports dht (RemotePeer v))
     then [go_testConnection v] else []) /\
  peerstore (Connected v dht) = peerstore dht /\
  strmap (Connected v dht) = strmap dht /\
  connManager (Connected v dht) =
    (if negb (closing dht) && supports dht (RemotePeer v)
        && connected dht (RemotePeer v)
     then UpdateProtection (routingTable dht) (RemotePeer v) (connManager dht)
     else connManager dht).
Proof.
  unfold Connected.
  destruct (closing dht); simpl; [rewrite !app_nil_r; by repeat split|].
  destruct (supports dht (RemotePeer v)); simpl.
  - unfold update_if_connected.
    destruct (connected dht (RemotePeer v)); simpl;
      [|rewrite !app_nil_r; by repeat split].
    destruct (_ && _).
    + rewrite signal_refresh_updates, signal_refresh_trace.
      destruct (signal_refresh_frame (dht_Update (RemotePeer v) dht))
        as (_ & -> & _ & -> & -> & _).
      unfold dht_Update. simpl.
      rewrite updates_snoc, !spawned_snoc, !app_nil_r. by repeat split.
    + unfold dht_Update. simpl.
      rewrite updates_snoc, spawned_snoc, !app_nil_r. by repeat split.
  - rewrite updates_snoc, spawned_snoc, !app_nil_r. by repeat split.
Qed.

End WithCollaborators.

(** ** At concrete states *)

Section AtSample.
#[local] Existing Instance Sample.net.

Lemma closing_ignores_notifications_witness :
  run [on_Connected Sample.conn_peer; on_Disconnected Sample.conn_gone;
       on_Connected Sample.conn_broken] Sample.dht_closing
  = Sample.dht_closing.
Proof.
  apply (closing_ignores_notifications
           [on_Connected Sample.conn_peer; on_Disconnected Sample.conn_gone;
            on_Connected Sample.conn_broken] Sample.dht_closing).
  - reflexivity.
  - repeat constructor.
Defined.

Lemma Connected_stale_witness :
  Connected Sample.conn_gone Sample.dht22 = Sample.dht22.
Proof.
  apply (Connected_stale Sample.conn_gone Sample.dht22); reflexivity.
Defined.

Lemma testConnection_closes_stream_witness :
  last (trace (testConnection Sample.conn_foreign Sample.dht19))
  = Some (EvFullClose (Some "/other/1.0.0")).
Proof.
  apply (testConnection_closes_stream Sample.conn_foreign Sample.dht19). reflexivity.
Defined.

Lemma testConnection_negotiated_witness :
  peerstore (testConnection Sample.conn_peer Sample.dht19)
  = AddProtocols (peerstore Sample.dht19) "QmPeer" ["/ipfs/kad/1.0.0"].
Proof.
  apply (testConnection_negotiated Sample.conn_peer Sample.dht19
           (Some "/ipfs/kad/1.0.0") "/ipfs/kad/1.0.0"); reflexivity.
Defined.

Lemma Disconnected_cleanup_witness :
  strmap (Disconnected Sample.conn_gone Sample.dht2)
  = delete "QmGone" (strmap Sample.dht2).
Proof.
  apply (Disconnected_cleanup Sample.conn_gone Sample.dht2); reflexivity.
Defined.

Lemma Disconnected_above_threshold_witness :
  updates (trace (Disconnected Sample.conn_gone Sample.dht22))
  = updates (trace Sample.dht22).
Proof.
  apply (Disconnected_above_threshold Sample.conn_gone Sample.dht22).
  - reflexivity.
  - reflexivity.
  - vm_compute. discriminate.
Defined.

Lemma no_refresh_without_autoRefresh_witness :
  sends (trace (run [on_Connected Sample.conn_peer; run_testConnection Sample.conn_peer]
                  Sample.dht22))
  = sends (trace Sample.dht22).
Proof.
  apply (no_refresh_without_autoRefresh
           [on_Connected Sample.conn_peer; run_testConnection Sample.conn_peer]
           Sample.dht22).
  reflexivity.
Defined.

End AtSample.
End NotifExtra.
